(** * A contact manager: value types, records, address book and handlers

    A shallow embedding of [assignment.py].  Python objects that are
    mutated in place become explicit state: a method of [Record] is a
    computation over the record it is called on, a command handler is a
    computation over the address book.  A raised exception is a result of
    its own, and the state at the moment of the raise is kept, as in
    Python.

    Strings are [string]: sequences of characters with code points below
    256.  On that range the regular-expression class [\d] is exactly
    ['0'..'9'] and [str.strip] removes the characters listed in
    [is_space]. *)

From Stdlib Require Import String Ascii List ZArith Lia Bool DecimalString.
Import ListNotations.

Local Open Scope string_scope.
Local Open Scope Z_scope.

(** ** Exceptions and the state-and-exception monad *)

Inductive exn : Type :=
| ValueError (msg : string)
| IndexError
| KeyError
| AttributeError
| OverflowError.

Inductive res (A : Type) : Type :=
| Ok (a : A)
| Raise (e : exn).

Arguments Ok {A} a.
Arguments Raise {A} e.

(** A computation over a mutable object of type [S]: it returns a value
    or raises, and in both cases leaves a state behind. *)
Definition M (S A : Type) : Type := S -> res A * S.

Definition ret {S A} (a : A) : M S A := fun s => (Ok a, s).

Definition bind {S A B} (m : M S A) (k : A -> M S B) : M S B :=
  fun s =>
    match m s with
    | (Ok a, s') => k a s'
    | (Raise e, s') => (Raise e, s')
    end.

Definition raise {S A} (e : exn) : M S A := fun s => (Raise e, s).

Definition get {S} : M S S := fun s => (Ok s, s).

Definition put {S} (s : S) : M S unit := fun _ => (Ok tt, s).

(** A pure fallible call ([Phone(...)], [Birthday(...)]) inside a method. *)
Definition lift {S A} (r : res A) : M S A := fun s => (r, s).

Declare Scope py_scope.
Delimit Scope py_scope with py.
Notation "x <- m ;; k" := (bind m (fun x => k))
  (at level 61, m at next level, right associativity) : py_scope.
Notation "m ;; k" := (bind m (fun _ => k))
  (at level 61, right associativity) : py_scope.
Local Open Scope py_scope.

(** ** Characters and strings *)

Definition is_digit (c : ascii) : bool :=
  let n := N_of_ascii c in ((48 <=? n) && (n <=? 57))%N.

Definition digit_val (c : ascii) : Z := Z.of_N (N_of_ascii c) - 48.

Definition newline : ascii := ascii_of_N 10.

(** [str.isspace] on code points below 256. *)
Definition is_space (c : ascii) : bool :=
  let n := N_of_ascii c in
  (((9 <=? n) && (n <=? 13)) || ((28 <=? n) && (n <=? 32))
   || (n =? 133) || (n =? 160))%N.

Fixpoint lstrip (s : string) : string :=
  match s with
  | String c r => if is_space c then lstrip r else s
  | EmptyString => EmptyString
  end.

Fixpoint rstrip (s : string) : string :=
  match s with
  | String c r =>
      match rstrip r with
      | EmptyString => if is_space c then EmptyString else String c EmptyString
      | r' => String c r'
      end
  | EmptyString => EmptyString
  end.

(** [s.strip()] *)
Definition strip (s : string) : string := rstrip (lstrip s).

(** [sep.join(parts)] *)
Fixpoint join (sep : string) (parts : list string) : string :=
  match parts with
  | [] => ""
  | [p] => p
  | p :: ps => p ++ sep ++ join sep ps
  end.

(** [s.split(c)] for a one-character separator: every occurrence splits,
    empty fields are kept. *)
Fixpoint split (sep : ascii) (s : string) : list string :=
  match s with
  | EmptyString => [""]
  | String c r =>
      if Ascii.eqb c sep then "" :: split sep r
      else match split sep r with
           | f :: fs => String c f :: fs
           | [] => [String c ""]
           end
  end.

(** [str(n)] and [f'{n}'] for an integer. *)
Definition str_int (n : Z) : string := NilZero.string_of_int (Z.to_int n).

(** ** The two patterns

    Both patterns are a sequence of one-character atoms between [^] and
    [$], tried with [match] (anchored at the start).  [$] without the
    MULTILINE flag matches at the end of the string and also just before a
    newline that ends the string. *)

Inductive atom : Type :=
| Digit
| Lit (c : ascii).

Definition atom_ok (a : atom) (c : ascii) : bool :=
  match a with
  | Digit => is_digit c
  | Lit l => Ascii.eqb c l
  end.

(** The rest of the string after the atoms, when they all match. *)
Fixpoint match_atoms (p : list atom) (s : string) : option string :=
  match p with
  | [] => Some s
  | a :: p' =>
      match s with
      | String c r => if atom_ok a c then match_atoms p' r else None
      | EmptyString => None
      end
  end.

Definition at_dollar (s : string) : bool :=
  match s with
  | EmptyString => true
  | String c EmptyString => Ascii.eqb c newline
  | _ => false
  end.

(** [re.compile('^' p '$').match(s)] is not [None]. *)
Definition re_match (p : list atom) (s : string) : bool :=
  match match_atoms p s with
  | Some r => at_dollar r
  | None => false
  end.

(** ** Value types *)

Module Name.
Record t : Type := mk { value : string }.

Definition init (value : string) : t := mk value.

Definition str (self : t) : string := value self.
End Name.

Module Phone.
Record t : Type := mk { value : string }.

(** [^\d{10}$] *)
Definition PH_PATTERN : list atom := repeat Digit 10.

Definition InvalidFormat : exn :=
  ValueError "Phone number must contain exactly 10 digits.".

Definition init (value : string) : res t :=
  if negb (re_match PH_PATTERN value) then Raise InvalidFormat
  else Ok (mk value).

(** [__eq__]: by value. *)
Definition eqb (self other : t) : bool := String.eqb (value self) (value other).

(** [Field.__str__] *)
Definition str (self : t) : string := value self.
End Phone.

(** What the error message of [Phone] asks for: exactly ten decimal
    digits. *)
Fixpoint all_digits (s : string) : bool :=
  match s with
  | EmptyString => true
  | String c r => is_digit c && all_digits r
  end.

Definition ten_digits (s : string) : bool :=
  (String.length s =? 10)%nat && all_digits s.

(** ** Calendar dates

    [datetime.date] of the Python standard library, after its reference
    implementation: proleptic Gregorian ordinals, day 1 being
    0001-01-01, a Monday.  A [datetime] at midnight, which is all that
    [strptime] with the format [%d.%m.%Y] produces, is identified with its
    date. *)

Module Date.
Record t : Type := mk { year : Z; month : Z; day : Z }.

Definition MINYEAR : Z := 1.
Definition MAXYEAR : Z := 9999.
Definition MAXORDINAL : Z := 3652059.

Definition is_leap (y : Z) : bool :=
  (y mod 4 =? 0) && (negb (y mod 100 =? 0) || (y mod 400 =? 0)).

Definition DAYS_IN_MONTH (m : Z) : Z :=
  match m with
  | 1 => 31 | 2 => 28 | 3 => 31 | 4 => 30 | 5 => 31 | 6 => 30
  | 7 => 31 | 8 => 31 | 9 => 30 | 10 => 31 | 11 => 30 | 12 => 31
  | _ => -1
  end.

Definition DAYS_BEFORE_MONTH (m : Z) : Z :=
  match m with
  | 1 => 0 | 2 => 31 | 3 => 59 | 4 => 90 | 5 => 120 | 6 => 151
  | 7 => 181 | 8 => 212 | 9 => 243 | 10 => 273 | 11 => 304 | 12 => 334
  | _ => -1
  end.

Definition days_in_month (y m : Z) : Z :=
  if (m =? 2) && is_leap y then 29 else DAYS_IN_MONTH m.

Definition days_before_year (y : Z) : Z :=
  let y := y - 1 in y * 365 + y / 4 - y / 100 + y / 400.

Definition days_before_month (y m : Z) : Z :=
  DAYS_BEFORE_MONTH m + (if (2 <? m) && is_leap y then 1 else 0).

Definition ymd2ord (y m d : Z) : Z :=
  days_before_year y + days_before_month y m + d.

Definition DI400Y : Z := 146097.
Definition DI100Y : Z := 36524.
Definition DI4Y : Z := 1461.

Definition ord2ymd (n : Z) : t :=
  let n := n - 1 in
  let n400 := n / DI400Y in
  let n := n mod DI400Y in
  let year := n400 * 400 + 1 in
  let n100 := n / DI100Y in
  let n := n mod DI100Y in
  let n4 := n / DI4Y in
  let n := n mod DI4Y in
  let n1 := n / 365 in
  let n := n mod 365 in
  let year := year + n100 * 100 + n4 * 4 + n1 in
  if (n1 =? 4) || (n100 =? 4) then mk (year - 1) 12 31
  else
    let leapyear := (n1 =? 3) && (negb (n4 =? 24) || (n100 =? 3)) in
    let month := Z.shiftr (n + 50) 5 in
    let preceding :=
      DAYS_BEFORE_MONTH month + (if (2 <? month) && leapyear then 1 else 0) in
    if n <? preceding then
      let month := month - 1 in
      let preceding :=
        preceding
        - (DAYS_IN_MONTH month + (if (month =? 2) && leapyear then 1 else 0)) in
      mk year month (n - preceding + 1)
    else mk year month (n - preceding + 1).

(** The fields a [date] object can hold. *)
Definition valid (d : t) : bool :=
  (MINYEAR <=? year d) && (year d <=? MAXYEAR)
  && (1 <=? month d) && (month d <=? 12)
  && (1 <=? day d) && (day d <=? days_in_month (year d) (month d)).

(** The constructor [date(year, month, day)]. *)
Definition make (y m d : Z) : res t :=
  if negb ((MINYEAR <=? y) && (y <=? MAXYEAR)) then
    Raise (ValueError ("year " ++ str_int y ++ " is out of range"))
  else if negb ((1 <=? m) && (m <=? 12)) then
    Raise (ValueError "month must be in 1..12")
  else if negb ((1 <=? d) && (d <=? days_in_month y m)) then
    Raise (ValueError "day is out of range for month")
  else Ok (mk y m d).

Definition toordinal (d : t) : Z := ymd2ord (year d) (month d) (day d).

Definition fromordinal (n : Z) : t := ord2ymd n.

(** Monday is 0, Sunday is 6. *)
Definition weekday (d : t) : Z := (toordinal d + 6) mod 7.

(** [(a - b).days] *)
Definition days_between (a b : t) : Z := toordinal a - toordinal b.

(** [d + timedelta(days=k)] *)
Definition add_days (d : t) (k : Z) : res t :=
  let o := toordinal d + k in
  if (0 <? o) && (o <=? MAXORDINAL) then Ok (fromordinal o)
  else Raise OverflowError.
End Date.

(** ** Formatting and parsing with the format [%d.%m.%Y] *)

Definition digit_char (k : Z) : ascii := ascii_of_N (48 + Z.to_N k).

(** [%02d] of a number in [0..99]. *)
Definition pad2 (n : Z) : string :=
  String (digit_char (n / 10 mod 10)) (String (digit_char (n mod 10)) "").

(** The four digits of a year, with zeros in front below 1000. *)
Definition pad4 (n : Z) : string :=
  String (digit_char (n / 1000 mod 10))
    (String (digit_char (n / 100 mod 10)) (pad2 n)).

(** The date written [DD.MM.YYYY], the year with four digits.  From the
    year 1000 on this is [d.strftime('%d.%m.%Y')]; [get_upcoming_birthdays]
    formats no other year, or drops the year part of what it formats. *)
Definition strftime (d : Date.t) : string :=
  pad2 (Date.day d) ++ "." ++ pad2 (Date.month d) ++ "." ++ pad4 (Date.year d).

(** [d.strftime('%d.%m.%Y')] for every year: CPython leaves [%Y] to the
    C library, and glibc writes the year without zeros in front, so
    that a year below 1000 has fewer than four digits. *)
Definition strftime_libc (d : Date.t) : string :=
  pad2 (Date.day d) ++ "." ++ pad2 (Date.month d) ++ "."
  ++ str_int (Date.year d).

Definition in_range (lo hi c : ascii) : bool :=
  let n := N_of_ascii c in ((N_of_ascii lo <=? n) && (n <=? N_of_ascii hi))%N.

(** The ways the directive [%d] can match at the start of a string, in
    the order the regular expression of [strptime] tries them:
    [3[0-1]|[1-2]\d|0[1-9]|[1-9]| [1-9]].  Each way gives the number read
    and the rest of the string. *)
Definition day_alts (s : string) : list (Z * string) :=
  match s with
  | String a r =>
      match r with
      | String b r' =>
          if (Ascii.eqb a "3" && in_range "0" "1" b)
             || (in_range "1" "2" a && is_digit b)
             || (Ascii.eqb a "0" && in_range "1" "9" b)
          then [(10 * digit_val a + digit_val b, r')]
          else []
      | EmptyString => []
      end
      ++ (if in_range "1" "9" a then [(digit_val a, r)] else [])
      ++ match r with
         | String b r' =>
             if Ascii.eqb a " " && in_range "1" "9" b
             then [(digit_val b, r')]
             else []
         | EmptyString => []
         end
  | EmptyString => []
  end.

(** [%m]: [1[0-2]|0[1-9]|[1-9]]. *)
Definition month_alts (s : string) : list (Z * string) :=
  match s with
  | String a r =>
      match r with
      | String b r' =>
          if (Ascii.eqb a "1" && in_range "0" "2" b)
             || (Ascii.eqb a "0" && in_range "1" "9" b)
          then [(10 * digit_val a + digit_val b, r')]
          else []
      | EmptyString => []
      end
      ++ (if in_range "1" "9" a then [(digit_val a, r)] else [])
  | EmptyString => []
  end.

(** [%Y]: [\d\d\d\d]. *)
Definition year_alt (s : string) : option (Z * string) :=
  match s with
  | String a (String b (String c (String d r))) =>
      if is_digit a && is_digit b && is_digit c && is_digit d
      then Some (1000 * digit_val a + 100 * digit_val b
                 + 10 * digit_val c + digit_val d, r)
      else None
  | _ => None
  end.

(** The first alternative, in order, on which the continuation succeeds:
    how a backtracking matcher resolves an alternation. *)
Fixpoint first_some {A B : Type} (f : A -> option B) (l : list A) : option B :=
  match l with
  | [] => None
  | a :: l' =>
      match f a with
      | Some b => Some b
      | None => first_some f l'
      end
  end.

Definition expect_dot {B : Type} (k : string -> option B) (s : string)
  : option B :=
  match s with
  | String c r => if Ascii.eqb c "." then k r else None
  | EmptyString => None
  end.

(** The match of [%d\.%m\.%Y] at the start of [s]: day, month, year and
    what is left of [s] after the match. *)
Definition format_regex_match (s : string) : option (Z * Z * Z * string) :=
  first_some
    (fun dr : Z * string =>
       expect_dot
         (fun s2 =>
            first_some
              (fun mr : Z * string =>
                 expect_dot
                   (fun s4 =>
                      match year_alt s4 with
                      | Some (y, rest) => Some (fst dr, fst mr, y, rest)
                      | None => None
                      end)
                   (snd mr))
              (month_alts s2))
         (snd dr))
    (day_alts s).

(** [datetime.strptime(s, '%d.%m.%Y')].  The messages are those of
    CPython 3.12; the quoted data is [repr(s)], which for the strings of
    digits and dots that reach this call is [s] between single quotes. *)
Definition strptime (s : string) : res Date.t :=
  match format_regex_match s with
  | None =>
      Raise (ValueError
               ("time data '" ++ s ++ "' does not match format '%d.%m.%Y'"))
  | Some (d, m, y, rest) =>
      match rest with
      | EmptyString => Date.make y m d
      | _ => Raise (ValueError ("unconverted data remains: " ++ rest))
      end
  end.

Module Birthday.
Record t : Type := mk { value : Date.t }.

(** [^\d{2}\.\d{2}\.\d{4}$] *)
Definition BD_PATTERN : list atom :=
  [Digit; Digit; Lit "."; Digit; Digit; Lit "."; Digit; Digit; Digit; Digit].

Definition InvalidFormat : exn :=
  ValueError "Invalid date format. Use DD.MM.YYYY".

Definition init (value : string) : res t :=
  if negb (re_match BD_PATTERN value) then Raise InvalidFormat
  else
    match strptime (strip value) with
    | Ok d => Ok (mk d)
    | Raise (ValueError _) => Raise InvalidFormat
    | Raise e => Raise e
    end.
End Birthday.

(** ** Lists as Python uses them *)

(** [x in l], for a list of phones: equality is [Phone.__eq__]. *)
Definition contains (x : Phone.t) (l : list Phone.t) : bool :=
  existsb (fun item => Phone.eqb item x) l.

(** [l.index(x)]: the first position holding a phone equal to [x]. *)
Fixpoint list_index (x : Phone.t) (l : list Phone.t) : option nat :=
  match l with
  | [] => None
  | item :: l' =>
      if Phone.eqb item x then Some O
      else match list_index x l' with
           | Some i => Some (S i)
           | None => None
           end
  end.

(** [l[i] = v]; [None] stands for the [IndexError] out of range. *)
Fixpoint list_setitem {A : Type} (i : nat) (v : A) (l : list A)
  : option (list A) :=
  match l, i with
  | [], _ => None
  | _ :: l', O => Some (v :: l')
  | a :: l', S i' =>
      match list_setitem i' v l' with
      | Some l'' => Some (a :: l'')
      | None => None
      end
  end.

(** [l.remove(x)]: the first phone equal to [x] goes; [None] stands for
    the [ValueError] when there is none. *)
Fixpoint list_remove (x : Phone.t) (l : list Phone.t)
  : option (list Phone.t) :=
  match l with
  | [] => None
  | item :: l' =>
      if Phone.eqb item x then Some l'
      else match list_remove x l' with
           | Some l'' => Some (item :: l'')
           | None => None
           end
  end.

(** ** Record *)

Module Record.
Record t : Type := mk {
  name : Name.t;
  phones : list Phone.t;
  birthday : option Birthday.t
}.

Definition init (name : string) : t := mk (Name.init name) [] None.

Definition set_phones (self : t) (l : list Phone.t) : t :=
  mk (name self) l (birthday self).

Definition set_birthday (self : t) (b : option Birthday.t) : t :=
  mk (name self) (phones self) b.

Definition DuplicatePhone : exn := ValueError "This phone number already exists".

Definition NotFound : exn := ValueError "Phone number not found".

Definition add_phone (phone : string) : M t unit :=
  phone_obj <- lift (Phone.init phone) ;;
  self <- get ;;
  if negb (contains phone_obj (phones self)) then
    put (set_phones self (phones self ++ [phone_obj]))
  else raise DuplicatePhone.

Definition add_birthday (birthday : string) : M t unit :=
  b <- lift (Birthday.init birthday) ;;
  self <- get ;;
  put (set_birthday self (Some b)).

Definition show_birthday : M t (option Birthday.t) :=
  self <- get ;;
  ret (birthday self).

Definition find_phone (phone : string) : M t Phone.t :=
  self <- get ;;
  match find (fun p => String.eqb (Phone.value p) phone) (phones self) with
  | Some p => ret p
  | None => raise NotFound
  end.

(** The two library errors below cannot happen after [find_phone] has
    returned; their messages are not those of CPython, which prints the
    object's address. *)
Definition edit_phone (old new : string) : M t unit :=
  phone_old <- find_phone old ;;
  phone_new <- lift (Phone.init new) ;;
  self <- get ;;
  match list_index phone_old (phones self) with
  | None => raise (ValueError "Phone object is not in list")
  | Some idx =>
      match list_setitem idx phone_new (phones self) with
      | Some l => put (set_phones self l)
      | None => raise IndexError
      end
  end.

Definition delete_phone (phone : string) : M t unit :=
  phone_obj <- find_phone phone ;;
  self <- get ;;
  match list_remove phone_obj (phones self) with
  | Some l => put (set_phones self l)
  | None => raise (ValueError "list.remove(x): x not in list")
  end.

(** [__str__] *)
Definition str (self : t) : string :=
  "Contact name: " ++ Name.value (name self) ++ ", phones: "
  ++ join "; " (map Phone.value (phones self)).
End Record.

(** ** AddressBook *)

(** One element of the list [get_upcoming_birthdays] returns: the dict
    with the keys ['name'] and ['congratulation_date']. *)
Record upcoming : Type := mk_upcoming {
  name : string;
  congratulation_date : string
}.

(** A loop that appends to one result list and stops at the first
    exception. *)
Fixpoint for_each {A B : Type} (f : A -> res (list B)) (l : list A)
  : res (list B) :=
  match l with
  | [] => Ok []
  | a :: l' =>
      match f a with
      | Raise e => Raise e
      | Ok bs =>
          match for_each f l' with
          | Raise e => Raise e
          | Ok cs => Ok (bs ++ cs)%list
          end
      end
  end.

Module AddressBook.
(** [self.data]: a dict, that is, keys without repetition in the order
    they were first inserted. *)
Definition t : Type := list (string * Record.t).

Definition empty : t := [].

(** [data[key] = v]: a key that is present keeps its place. *)
Fixpoint setitem (key : string) (v : Record.t) (data : t) : t :=
  match data with
  | [] => [(key, v)]
  | (k, r) :: data' =>
      if String.eqb k key then (k, v) :: data'
      else (k, r) :: setitem key v data'
  end.

(** [data.get(key)] *)
Fixpoint getitem (key : string) (data : t) : option Record.t :=
  match data with
  | [] => None
  | (k, r) :: data' => if String.eqb k key then Some r else getitem key data'
  end.

(** [del data[key]] *)
Fixpoint delitem (key : string) (data : t) : t :=
  match data with
  | [] => []
  | (k, r) :: data' =>
      if String.eqb k key then data' else (k, r) :: delitem key data'
  end.

(** [data.values()] *)
Definition values (data : t) : list Record.t := map snd data.

Definition add_record (record : Record.t) : M t unit :=
  self <- get ;;
  put (setitem (Name.value (Record.name record)) record self).

Definition find (name : string) : M t (option Record.t) :=
  self <- get ;;
  ret (getitem name self).

Definition NotFound : exn :=
  ValueError "This name does not exist in this address book".

Definition delete (name : string) : M t unit :=
  self <- get ;;
  match getitem name self with
  | Some _ => put (delitem name self)
  | None => raise NotFound
  end.

(** The body of the loop over the two years. *)
Definition candidate (today : Date.t) (name ddmm : string) (year : Z)
  : res (list upcoming) :=
  let birthday := ddmm ++ "." ++ str_int year in
  match strptime birthday with
  | Raise e => Raise e
  | Ok birthday_dt =>
      let days_diff := Date.days_between birthday_dt today in
      if (0 <=? days_diff) && (days_diff <=? 7) then
        if (0 <=? Date.weekday birthday_dt) && (Date.weekday birthday_dt <=? 4)
        then Ok [mk_upcoming name birthday]
        else
          match Date.add_days birthday_dt (7 - Date.weekday birthday_dt) with
          | Raise e => Raise e
          | Ok d => Ok [mk_upcoming name (strftime d)]
          end
      else Ok []
  end.

(** The body of the loop over the records.  Reading [.value] of a
    birthday that is [None] raises [AttributeError]. *)
Definition upcoming_of_record (today : Date.t) (record : Record.t)
  : res (list upcoming) :=
  match Record.birthday record with
  | None => Raise AttributeError
  | Some b =>
      let birthday := strftime (Birthday.value b) in
      let ddmm := join "." (removelast (split "." birthday)) in
      let this_year := Date.year today in
      let next_year := this_year + 1 in
      for_each (candidate today (Name.value (Record.name record)) ddmm)
        [this_year; next_year]
  end.

(** [today] is what [datetime.today()] returns during the call. *)
Definition get_upcoming_birthdays (today : Date.t) (self : t)
  : res (list upcoming) :=
  for_each (upcoming_of_record today) (values self).
End AddressBook.

(** ** Command handlers *)

(** The decorator: a [ValueError] becomes its message, an [IndexError]
    and a [KeyError] a fixed text; any other exception goes through. *)
Definition input_error {S : Type} (func : M S string) : M S string :=
  fun s =>
    match func s with
    | (Raise (ValueError msg), s') => (Ok msg, s')
    | (Raise IndexError, s') => (Ok "Not enough arguments", s')
    | (Raise KeyError, s') => (Ok "Contact not found", s')
    | r => r
    end.

(** [a, b = args] (messages of CPython 3.12). *)
Definition unpack2 {S : Type} (args : list string) : M S (string * string) :=
  match args with
  | [a; b] => ret (a, b)
  | _ :: _ :: _ :: _ =>
      raise (ValueError "too many values to unpack (expected 2)")
  | _ =>
      raise (ValueError ("not enough values to unpack (expected 2, got "
                         ++ str_int (Z.of_nat (length args)) ++ ")"))
  end.

(** [a, b, c = args] *)
Definition unpack3 {S : Type} (args : list string)
  : M S (string * string * string) :=
  match args with
  | [a; b; c] => ret (a, b, c)
  | _ :: _ :: _ :: _ :: _ =>
      raise (ValueError "too many values to unpack (expected 3)")
  | _ =>
      raise (ValueError ("not enough values to unpack (expected 3, got "
                         ++ str_int (Z.of_nat (length args)) ++ ")"))
  end.

(** [args[0]] *)
Definition first_arg {S : Type} (args : list string) : M S string :=
  match args with
  | a :: _ => ret a
  | [] => raise IndexError
  end.

(** A method call on the record object the book holds under [key].  The
    handler's variable [record] and the book's entry are one object, so
    what the method does to it, also before a raise, is what the book
    holds afterwards. *)
Definition on_record {A : Type} (key : string) (record : Record.t)
  (method : M Record.t A) : M AddressBook.t A :=
  fun book =>
    let (r, record') := method record in
    (r, AddressBook.setitem key record' book).

Definition NoContact : exn := ValueError "No contact found".

Definition add_contact (args : list string) : M AddressBook.t string :=
  input_error
    (np <- unpack2 args ;;
     let (name, phone) := np in
     found <- AddressBook.find name ;;
     match found with
     | None =>
         let record := Record.init name in
         AddressBook.add_record record ;;
         on_record name record (Record.add_phone phone) ;;
         ret "Contact added."
     | Some record =>
         on_record name record (Record.add_phone phone) ;;
         ret "Contact updated."
     end).

Definition change_contact (args : list string) : M AddressBook.t string :=
  input_error
    (npp <- unpack3 args ;;
     let '(name, phone_old, phone_new) := npp in
     found <- AddressBook.find name ;;
     match found with
     | None => raise NoContact
     | Some record =>
         on_record name record (Record.edit_phone phone_old phone_new) ;;
         ret "Contact updated"
     end).

Definition delete_contact (args : list string) : M AddressBook.t string :=
  input_error
    (name <- first_arg args ;;
     found <- AddressBook.find name ;;
     match found with
     | None => raise NoContact
     | Some _ =>
         AddressBook.delete name ;;
         ret "Contact deleted"
     end).

Definition show_phone (args : list string) : M AddressBook.t string :=
  input_error
    (name <- first_arg args ;;
     found <- AddressBook.find name ;;
     match found with
     | None => raise NoContact
     | Some record =>
         ret (strip (join "; " (map Phone.value (Record.phones record))))
     end).

Definition show_all : M AddressBook.t string :=
  input_error
    (book <- get ;;
     match AddressBook.values book with
     | [] => ret "No contacts found"
     | records => ret (join (String newline "") (map Record.str records))
     end).

Definition delete_phone (args : list string) : M AddressBook.t string :=
  input_error
    (np <- unpack2 args ;;
     let (name, phone) := np in
     found <- AddressBook.find name ;;
     match found with
     | None => raise NoContact
     | Some record =>
         if negb (existsb (String.eqb phone)
                    (map Phone.value (Record.phones record)))
         then raise (ValueError "No such phone number in contact")
         else
           on_record name record (Record.delete_phone phone) ;;
           ret "Phone deleted"
     end).

Definition AlreadySet : exn := ValueError "Birthday already given".

Definition add_birthday (args : list string) : M AddressBook.t string :=
  input_error
    (nb <- unpack2 args ;;
     let (name, birthday) := nb in
     found <- AddressBook.find name ;;
     match found with
     | None => raise NoContact
     | Some record =>
         match Record.birthday record with
         | Some _ => raise AlreadySet
         | None =>
             on_record name record (Record.add_birthday birthday) ;;
             ret "Birthday added"
         end
     end).

Definition show_birthday (args : list string) : M AddressBook.t string :=
  input_error
    (name <- first_arg args ;;
     found <- AddressBook.find name ;;
     match found with
     | None => raise NoContact
     | Some record =>
         match Record.birthday record with
         | None => raise (ValueError "No birthday found")
         | Some b => ret (strftime_libc (Birthday.value b))
         end
     end).

(** ** Reading a command *)

(** [c.lower()] on code points below 256: the letters [A-Z] and the
    capital letters of Latin-1 ([0xC0-0xDE] without the multiplication
    sign) move up by 32. *)
Definition lower_char (c : ascii) : ascii :=
  let n := N_of_ascii c in
  if (((65 <=? n) && (n <=? 90))
      || ((192 <=? n) && (n <=? 222) && negb (n =? 215)))%N
  then ascii_of_N (n + 32)
  else c.

(** [s.lower()] *)
Fixpoint lower (s : string) : string :=
  match s with
  | EmptyString => EmptyString
  | String c r => String (lower_char c) (lower r)
  end.

(** [s.split()]: the maximal runs of characters that are not white
    space. *)
Fixpoint split_ws (s : string) : list string :=
  match s with
  | EmptyString => []
  | String c r =>
      if is_space c then split_ws r
      else
        match r with
        | EmptyString => [String c ""]
        | String c' _ =>
            if is_space c' then String c "" :: split_ws r
            else
              match split_ws r with
              | t :: ts => String c t :: ts
              | [] => [String c ""]
              end
        end
  end.

(** [parts[0]] of an empty list raises [IndexError]; [parse_input] is not
    decorated, so the exception leaves the function. *)
Definition parse_input (user_input : string) : res (string * list string) :=
  match split_ws (strip user_input) with
  | [] => Raise IndexError
  | command :: args => Ok (lower command, args)
  end.

(** ** The [birthdays] handler *)

Definition apostrophe : ascii := ascii_of_N 39.
Definition quotation : ascii := ascii_of_N 34.
Definition backslash : ascii := ascii_of_N 92.

Fixpoint has_char (c : ascii) (s : string) : bool :=
  match s with
  | EmptyString => false
  | String a r => Ascii.eqb a c || has_char c r
  end.

Definition hex_digit (k : N) : ascii :=
  if (k <? 10)%N then ascii_of_N (48 + k) else ascii_of_N (87 + k).

(** [c.isprintable()] on code points below 256. *)
Definition is_printable (c : ascii) : bool :=
  let n := N_of_ascii c in
  negb ((n <? 32) || ((127 <=? n) && (n <=? 160)) || (n =? 173))%N.

(** One character inside [repr(s)], [quote] being the quote chosen. *)
Definition repr_char (quote c : ascii) : string :=
  let n := N_of_ascii c in
  if Ascii.eqb c backslash then String backslash (String backslash "")
  else if Ascii.eqb c quote then String backslash (String quote "")
  else if (n =? 9)%N then String backslash "t"
  else if (n =? 10)%N then String backslash "n"
  else if (n =? 13)%N then String backslash "r"
  else if is_printable c then String c ""
  else String backslash
         (String "x" (String (hex_digit (n / 16)) (String (hex_digit (n mod 16)) ""))).

Fixpoint repr_body (quote : ascii) (s : string) : string :=
  match s with
  | EmptyString => EmptyString
  | String c r => repr_char quote c ++ repr_body quote r
  end.

(** [repr(s)] of a string: between apostrophes, unless the string has
    an apostrophe and no quotation mark. *)
Definition repr (s : string) : string :=
  let quote :=
    if has_char apostrophe s && negb (has_char quotation s) then quotation
    else apostrophe in
  String quote (repr_body quote s ++ String quote "").

(** [str(bd_user)] of one dict of the result list. *)
Definition str_upcoming (u : upcoming) : string :=
  "{'name': " ++ repr (name u) ++ ", 'congratulation_date': "
  ++ repr (congratulation_date u) ++ "}".

Definition birthdays (today : Date.t) : M AddressBook.t string :=
  input_error
    (fun book =>
       match AddressBook.get_upcoming_birthdays today book with
       | Raise e => (Raise e, book)
       | Ok [] => (Ok "No upcoming birthdays available", book)
       | Ok result =>
           (Ok (join (String newline "") (map str_upcoming result)), book)
       end).

(** ** The loop of [main] *)

(** How a run ends: [break] after [close] or [exit], an exception that
    nothing catches, or [input] finding no further line (it raises
    [EOFError]). *)
Inductive outcome : Type :=
| Exited
| Uncaught (e : exn)
| EndOfInput.

(** The branch of the [if]-chain a command takes; [None] is the [break]
    of [close] and [exit], whose farewell the loop prints itself. *)
Definition dispatch (today : Date.t) (command : string) (args : list string)
  : option (M AddressBook.t string) :=
  if String.eqb command "close" || String.eqb command "exit" then None
  else if String.eqb command "hello" then Some (ret "How can I help you?")
  else if String.eqb command "add" then Some (add_contact args)
  else if String.eqb command "change" then Some (change_contact args)
  else if String.eqb command "delete" then Some (delete_contact args)
  else if String.eqb command "phone" then Some (show_phone args)
  else if String.eqb command "delete-phone" then Some (delete_phone args)
  else if String.eqb command "all" then Some show_all
  else if String.eqb command "add-birthday" then Some (add_birthday args)
  else if String.eqb command "show-birthday" then Some (show_birthday args)
  else if String.eqb command "birthdays" then Some (birthdays today)
  else Some (ret "Invalid command.").

(** The [while True] loop on the lines [input] returns, each with the
    date of the day it is typed on: the lines printed, how the run ends,
    and the book at that moment. *)
Fixpoint main_loop (inputs : list (Date.t * string)) (book : AddressBook.t)
  : list string * outcome * AddressBook.t :=
  match inputs with
  | [] => ([], EndOfInput, book)
  | (today, user_input) :: inputs' =>
      match parse_input user_input with
      | Raise e => ([], Uncaught e, book)
      | Ok (command, args) =>
          match dispatch today command args with
          | None => (["Good bye!"], Exited, book)
          | Some handler =>
              match handler book with
              | (Raise e, book') => ([], Uncaught e, book')
              | (Ok message, book') =>
                  let '(printed, how, book'') := main_loop inputs' book' in
                  (message :: printed, how, book'')
              end
          end
      end
  end.

Definition main (inputs : list (Date.t * string))
  : list string * outcome * AddressBook.t :=
  let '(printed, how, book) := main_loop inputs AddressBook.empty in
  ("Welcome to the assistant bot!" :: printed, how, book).

(** ** Auxiliary definitions for the proofs *)

(** The first invariant of the data model: the phone matches the
    pattern of [Phone]. *)
Definition well_formed (p : Phone.t) : Prop :=
  re_match Phone.PH_PATTERN (Phone.value p) = true.

(** What [ord2ymd] needs of its last step, from the day of the year to
    month and day, as a test that can be run on every day of a year. *)
Definition month_step_ok (leap : bool) (n : Z) : bool :=
  let month := Z.shiftr (n + 50) 5 in
  let preceding :=
    Date.DAYS_BEFORE_MONTH month + (if (2 <? month) && leap then 1 else 0) in
  let mp :=
    if n <? preceding then
      (month - 1,
       preceding - (Date.DAYS_IN_MONTH (month - 1)
                    + (if (month - 1 =? 2) && leap then 1 else 0)))
    else (month, preceding) in
  let m := fst mp in let p := snd mp in
  (1 <=? m) && (m <=? 12)
  && (p =? Date.DAYS_BEFORE_MONTH m + (if (2 <? m) && leap then 1 else 0))
  && (0 <=? n - p)
  && (n - p <? Date.DAYS_IN_MONTH m + (if (m =? 2) && leap then 1 else 0)).

(** Case analysis on every integer comparison of the goal. *)
Ltac zbool :=
  repeat match goal with
  | |- context [?a =? ?b] => destruct (Z.eqb_spec a b)
  | |- context [?a <? ?b] => destruct (Z.ltb_spec a b)
  | |- context [?a <=? ?b] => destruct (Z.leb_spec a b)
  end.

(** ** Auxiliary definitions for the upcoming birthdays, the handlers
    and the loop *)

(** The rest of the string, in a partial match of [strptime], starts
    with a digit. *)
Definition starts_with_digit (e : Z * string) : Prop :=
  exists c r, snd e = String c r /\ is_digit c = true.

(** The decimal notation of the years a reference date can have, and of
    the year after the last one. *)
Definition year_string_ok (y : Z) : bool :=
  if y <? 1000 then
    match year_alt (str_int y) with None => true | Some _ => false end
  else String.eqb (str_int y) (pad4 y).

(** A date from Monday to Friday stays; a Saturday or Sunday moves to
    the Monday after it. *)
Definition roll_to_monday (c : Date.t) : Date.t :=
  if Date.weekday c <=? 4 then c
  else Date.fromordinal (Date.toordinal c + (7 - Date.weekday c)).

(** The entry, if any, for the occurrence of the birthday [b] in the
    year [y]: it is there when the occurrence is 0 to 7 days ahead. *)
Definition occurrence_entry (today : Date.t) (name : string) (b : Date.t)
  (y : Z) : list upcoming :=
  let c := Date.mk y (Date.month b) (Date.day b) in
  let diff := Date.days_between c today in
  if (0 <=? diff) && (diff <=? 7)
  then [mk_upcoming name (strftime (roll_to_monday c))]
  else [].

(** An entry a reference date can get: it carries the name, and its
    congratulation date reads as a date from Monday to Friday, today at
    the earliest and 9 days ahead at the latest. *)
Definition entry_ok (today : Date.t) (n : string) (e : upcoming) : Prop :=
  name e = n
  /\ exists c,
       strptime (congratulation_date e) = Ok c
       /\ 0 <= Date.weekday c <= 4
       /\ 0 <= Date.days_between c today <= 9.

(** The list for a book, said with dates. *)
Definition upcoming_by_dates (today : Date.t) (book : AddressBook.t)
  : list upcoming :=
  flat_map
    (fun record =>
       match Record.birthday record with
       | Some b =>
           (occurrence_entry today (Name.value (Record.name record))
              (Birthday.value b) (Date.year today)
            ++ occurrence_entry today (Name.value (Record.name record))
                 (Birthday.value b) (Date.year today + 1))%list
       | None => []
       end)
    (AddressBook.values book).

(** The record has a birthday, a date of the calendar other than
    29 February. *)
Definition plain_birthday (record : Record.t) : Prop :=
  exists b,
    Record.birthday record = Some b
    /\ Date.valid (Birthday.value b) = true
    /\ ~ (Date.month (Birthday.value b) = 2 /\ Date.day (Birthday.value b) = 29).

(** The exceptions [input_error] turns into a text. *)
Definition caught (e : exn) : Prop :=
  match e with
  | ValueError _ | IndexError | KeyError => True
  | _ => False
  end.

(** What a method of [Record] does besides its result: it keeps the
    name, and when it raises, the exception is one [input_error] catches
    and the record is as before. *)
Definition tidy {A : Type} (method : M Record.t A) : Prop :=
  forall r,
    Record.name (snd (method r)) = Record.name r
    /\ forall e, fst (method r) = Raise e -> snd (method r) = r /\ caught e.

(** No character of the string is white space. *)
Fixpoint no_space (s : string) : bool :=
  match s with
  | EmptyString => true
  | String c r => negb (is_space c) && no_space r
  end.

(** What [split] without arguments returns: pieces that are not empty
    and hold no white space. *)
Definition token (t : string) : Prop := t <> "" /\ no_space t = true.

(** The invariants below are stated once for a property [Q] of phones:
    matching the pattern, or being exactly ten digits. *)
Section RecordPhones.
Variable Q : Phone.t -> Prop.

(** The invariants of the data model on one record, the one on equal
    phones apart: every phone has [Q] and the birthday, when there is
    one, is a date of the calendar. *)
Definition phones_all (r : Record.t) : Prop :=
  Forall Q (Record.phones r)
  /\ forall b, Record.birthday r = Some b ->
               Date.valid (Birthday.value b) = true.

(** An argument from which [Phone] builds phones with [Q] only. *)
Definition builds (s : string) : Prop :=
  forall p, Phone.init s = Ok p -> Q p.

(** How a handler can change the book: not at all, by changing the
    record under a key without touching its name, by a new key with a
    record of that name, or by removing a key. *)
Inductive book_step (book : AddressBook.t) : AddressBook.t -> Prop :=
| step_same : book_step book book
| step_update key record record' :
    AddressBook.getitem key book = Some record ->
    Record.name record' = Record.name record ->
    (phones_all record -> phones_all record') ->
    book_step book (AddressBook.setitem key record' book)
| step_insert name record' :
    AddressBook.getitem name book = None ->
    Record.name record' = Name.mk name ->
    phones_all record' ->
    book_step book (AddressBook.setitem name record' book)
| step_delete name : book_step book (AddressBook.delitem name book).

(** No key twice, every key the name of its record, and every record
    within its invariants. *)
Definition book_inv (book : AddressBook.t) : Prop :=
  NoDup (map fst book)
  /\ Forall (fun kr => fst kr = Name.value (Record.name (snd kr))
                       /\ phones_all (snd kr)) book.

(** What is proved of a decorated handler [h] with the text [success]
    of its last line: it returns a text, it moves the book by one step,
    and when the text is not [success] the book is the one it was
    given. *)
Definition well_behaved (h : M AddressBook.t string) (success : string) : Prop :=
  forall book,
    (exists text, fst (h book) = Ok text)
    /\ book_step book (snd (h book))
    /\ (fst (h book) <> Ok success -> snd (h book) = book).
End RecordPhones.

(** What the error message of [Phone] asks of a phone. *)
Definition exact_phone (p : Phone.t) : Prop :=
  ten_digits (Phone.value p) = true.

(** A method call through the book's own record. *)
Ltac run_method method record Ht :=
  let u := fresh "u" in
  let e := fresh "e" in
  let r' := fresh "record'" in
  let E := fresh "E" in
  let Hn := fresh "Hn" in
  let Hr := fresh "Hr" in
  let Hc := fresh "Hc" in
  destruct (Ht record) as (Hn & Hr);
  destruct (method record) as [[u|e] r'] eqn:E; cbn [fst snd] in Hn, Hr;
  [ | destruct (Hr e eq_refl) as [-> Hc];
      destruct e; cbn in Hc; try contradiction ].

(** The handler answers with a text and leaves the book alone. *)
Ltac quiet_case :=
  cbn; split; [eauto|split; [apply step_same|reflexivity]].

(** Every character of the string is white space. *)
Fixpoint blank (s : string) : bool :=
  match s with
  | EmptyString => true
  | String c r => is_space c && blank r
  end.

(** The string is empty or starts with white space. *)
Definition starts_space (s : string) : bool :=
  match s with
  | EmptyString => true
  | String c _ => is_space c
  end.

(** * Properties

    ** The calendar *)

Lemma is_leap_decomp y n400 n100 n4 n1 :
  0 <= n400 -> 0 <= n100 <= 3 -> 0 <= n4 <= 24 -> 0 <= n1 <= 3 ->
  y = n400 * 400 + 1 + n100 * 100 + n4 * 4 + n1 ->
  Date.is_leap y = (n1 =? 3) && (negb (n4 =? 24) || (n100 =? 3)).
Proof.
  intros ? ? ? ? ->. unfold Date.is_leap.
  zbool; simpl; try reflexivity; exfalso; Z.div_mod_to_equations; lia.
Qed.

Lemma days_before_year_decomp y n400 n100 n4 n1 :
  0 <= n400 -> 0 <= n100 <= 3 -> 0 <= n4 <= 24 -> 0 <= n1 <= 3 ->
  y = n400 * 400 + 1 + n100 * 100 + n4 * 4 + n1 ->
  Date.days_before_year y
  = 146097 * n400 + 36524 * n100 + 1461 * n4 + 365 * n1.
Proof.
  intros ? ? ? ? ->. unfold Date.days_before_year. cbv zeta.
  Z.div_mod_to_equations. lia.
Qed.

Lemma month_step_all (leap : bool) (n : Z) :
  0 <= n < 365 -> month_step_ok leap n = true.
Proof.
  intros Hn.
  assert (H : forallb (fun k => month_step_ok leap (Z.of_nat k)) (seq 0 365) = true)
    by (destruct leap; vm_compute; reflexivity).
  rewrite forallb_forall in H.
  specialize (H (Z.to_nat n)). rewrite Z2Nat.id in H by lia.
  apply H. apply in_seq. lia.
Qed.

Lemma ord2ymd_ok n : 1 <= n ->
  let d := Date.ord2ymd n in
  1 <= Date.year d /\ 1 <= Date.month d <= 12
  /\ 1 <= Date.day d <= Date.days_in_month (Date.year d) (Date.month d)
  /\ Date.toordinal d = n.
Proof.
  intros Hn. unfold Date.ord2ymd, Date.DI400Y, Date.DI100Y, Date.DI4Y.
  pose proof (Z.div_mod (n - 1) 146097 ltac:(lia)) as E1.
  pose proof (Z.mod_pos_bound (n - 1) 146097 ltac:(lia)) as B1.
  set (n400 := (n - 1) / 146097) in *. set (r1 := (n - 1) mod 146097) in *.
  pose proof (Z.div_mod r1 36524 ltac:(lia)) as E2.
  pose proof (Z.mod_pos_bound r1 36524 ltac:(lia)) as B2.
  set (n100 := r1 / 36524) in *. set (r2 := r1 mod 36524) in *.
  pose proof (Z.div_mod r2 1461 ltac:(lia)) as E3.
  pose proof (Z.mod_pos_bound r2 1461 ltac:(lia)) as B3.
  set (n4 := r2 / 1461) in *. set (r3 := r2 mod 1461) in *.
  pose proof (Z.div_mod r3 365 ltac:(lia)) as E4.
  pose proof (Z.mod_pos_bound r3 365 ltac:(lia)) as B4.
  set (n1 := r3 / 365) in *. set (r4 := r3 mod 365) in *.
  assert (H400 : 0 <= n400) by (subst n400; apply Z.div_pos; lia).
  assert (H100 : 0 <= n100 <= 4) by lia.
  assert (H4 : 0 <= n4 <= 24) by lia.
  assert (H1 : 0 <= n1 <= 4) by lia.
  cbv zeta.
  destruct (Z.eqb_spec n100 4) as [e100|ne100].
  - (* the last day of a 400-year cycle *)
    rewrite orb_true_r.
    assert (n4 = 0 /\ n1 = 0 /\ r4 = 0) as (e4 & e1 & e0) by lia.
    unfold Date.toordinal, Date.ymd2ord, Date.days_in_month,
      Date.days_before_month. cbn [Date.year Date.month Date.day].
    set (y := n400 * 400 + 1 + n100 * 100 + n4 * 4 + n1 - 1).
    rewrite (is_leap_decomp y n400 3 24 3),
      (days_before_year_decomp y n400 3 24 3) by (subst y; lia).
    subst y. cbv beta iota delta [Date.DAYS_IN_MONTH Date.DAYS_BEFORE_MONTH].
    zbool; cbn [andb orb negb]; lia.
  - destruct (Z.eqb_spec n1 4) as [e1|ne1].
    + (* the last day of a leap year *)
      simpl orb. cbv iota.
      assert (r4 = 0 /\ n4 <= 23) as (e4 & H4') by lia.
      unfold Date.toordinal, Date.ymd2ord, Date.days_in_month,
        Date.days_before_month. cbn [Date.year Date.month Date.day].
      set (y := n400 * 400 + 1 + n100 * 100 + n4 * 4 + n1 - 1).
      rewrite (is_leap_decomp y n400 n100 n4 3),
        (days_before_year_decomp y n400 n100 n4 3) by (subst y; lia).
      replace (n4 =? 24) with false by (symmetry; apply Z.eqb_neq; lia).
      subst y. cbv beta iota delta [Date.DAYS_IN_MONTH Date.DAYS_BEFORE_MONTH].
      zbool; cbn [andb orb negb]; lia.
    + simpl orb. cbv iota.
      set (leap := (n1 =? 3) && (negb (n4 =? 24) || (n100 =? 3))).
      pose proof (month_step_all leap r4 ltac:(lia)) as Hm.
      unfold month_step_ok in Hm. cbv zeta in Hm.
      set (month := Z.shiftr (r4 + 50) 5) in *.
      set (preceding := Date.DAYS_BEFORE_MONTH month
                        + (if (2 <? month) && leap then 1 else 0)) in *.
      set (y := n400 * 400 + 1 + n100 * 100 + n4 * 4 + n1).
      assert (Hleap : Date.is_leap y = leap)
        by (apply (is_leap_decomp y n400 n100 n4 n1); subst y; lia).
      assert (Hdby : Date.days_before_year y
                     = 146097 * n400 + 36524 * n100 + 1461 * n4 + 365 * n1)
        by (apply (days_before_year_decomp y n400 n100 n4 n1); subst y; lia).
      assert (Hy : 1 <= y) by (subst y; lia).
      destruct (r4 <? preceding);
        cbn [fst snd] in Hm;
        rewrite !andb_true_iff, !Z.leb_le, !Z.ltb_lt, Z.eqb_eq in Hm;
        destruct Hm as ((((Hm1 & Hm2) & Hp) & Hlo) & Hhi);
        unfold Date.toordinal, Date.ymd2ord, Date.days_in_month,
          Date.days_before_month;
        cbn [Date.year Date.month Date.day];
        rewrite Hleap, Hdby, <- Hp.
      * destruct (Z.eqb_spec (month - 1) 2) as [e|ne].
        -- rewrite e in *.
           cbv beta iota delta [Date.DAYS_IN_MONTH] in *.
           destruct leap; cbn [andb] in *; lia.
        -- cbn [andb] in *. lia.
      * destruct (Z.eqb_spec month 2) as [e|ne].
        -- rewrite e in *.
           cbv beta iota delta [Date.DAYS_IN_MONTH] in *.
           destruct leap; cbn [andb] in *; lia.
        -- cbn [andb] in *. lia.
Qed.

Lemma valid_iff d :
  Date.valid d = true <->
  1 <= Date.year d <= 9999 /\ 1 <= Date.month d <= 12
  /\ 1 <= Date.day d <= Date.days_in_month (Date.year d) (Date.month d).
Proof.
  unfold Date.valid, Date.MINYEAR, Date.MAXYEAR.
  rewrite !andb_true_iff, !Z.leb_le. tauto.
Qed.

Lemma days_before_month_bounds y m d :
  1 <= m <= 12 -> 1 <= d <= Date.days_in_month y m ->
  1 <= Date.days_before_month y m + d
       <= 365 + (if Date.is_leap y then 1 else 0).
Proof.
  intros Hm. unfold Date.days_before_month, Date.days_in_month.
  assert (C : m = 1 \/ m = 2 \/ m = 3 \/ m = 4 \/ m = 5 \/ m = 6 \/ m = 7
              \/ m = 8 \/ m = 9 \/ m = 10 \/ m = 11 \/ m = 12) by lia.
  destruct (Date.is_leap y);
    repeat match goal with H : _ \/ _ |- _ => destruct H end;
    subst m; cbv beta iota delta [Date.DAYS_BEFORE_MONTH Date.DAYS_IN_MONTH];
    zbool; cbn [andb]; lia.
Qed.

Lemma toordinal_bounds d :
  Date.valid d = true -> 1 <= Date.toordinal d <= Date.MAXORDINAL.
Proof.
  rewrite valid_iff. intros (Hy & Hm & Hd).
  pose proof (days_before_month_bounds _ _ _ Hm Hd) as B.
  unfold Date.toordinal, Date.ymd2ord, Date.MAXORDINAL.
  revert B. unfold Date.is_leap, Date.days_before_year. cbv zeta.
  generalize (Date.days_before_month (Date.year d) (Date.month d)). intros k.
  zbool; cbn [andb orb negb]; intros B; Z.div_mod_to_equations; lia.
Qed.

Lemma fromordinal_ok n :
  1 <= n <= Date.MAXORDINAL ->
  Date.valid (Date.fromordinal n) = true
  /\ Date.toordinal (Date.fromordinal n) = n.
Proof.
  intros [Hlo Hhi]. unfold Date.fromordinal.
  pose proof (ord2ymd_ok n Hlo) as H. cbv zeta in H.
  revert H. generalize (Date.ord2ymd n). intros d (Hy & Hm & Hd & Ho).
  split; [ | exact Ho ].
  apply valid_iff. repeat split; try lia.
  destruct (Z.le_gt_cases (Date.year d) 9999) as [ |Hbig]; [ assumption | exfalso ].
  pose proof (days_before_month_bounds _ _ _ Hm Hd) as B.
  unfold Date.toordinal, Date.ymd2ord, Date.MAXORDINAL in *.
  revert Ho B. unfold Date.days_before_year. cbv zeta.
  generalize (Date.days_before_month (Date.year d) (Date.month d)).
  intros k Ho B. Z.div_mod_to_equations. lia.
Qed.

Lemma weekday_range d : 0 <= Date.weekday d <= 6.
Proof. unfold Date.weekday. Z.div_mod_to_equations. lia. Qed.

Lemma weekend_rolls_to_monday d :
  Date.valid d = true -> 5 <= Date.weekday d ->
  exists monday,
    Date.add_days d (7 - Date.weekday d) = Ok monday
    /\ Date.valid monday = true
    /\ Date.toordinal monday = Date.toordinal d + (7 - Date.weekday d)
    /\ Date.weekday monday = 0.
Proof.
  intros Hv Hw. pose proof (toordinal_bounds d Hv) as B.
  pose proof (weekday_range d) as R.
  unfold Date.add_days.
  set (o := Date.toordinal d + (7 - Date.weekday d)).
  assert (Ho : 1 <= o <= Date.MAXORDINAL).
  { subst o. unfold Date.weekday, Date.MAXORDINAL in *.
    Z.div_mod_to_equations. lia. }
  replace ((0 <? o) && (o <=? Date.MAXORDINAL)) with true
    by (symmetry; apply andb_true_iff; split; [apply Z.ltb_lt | apply Z.leb_le]; lia).
  destruct (fromordinal_ok o Ho) as [V E].
  exists (Date.fromordinal o). repeat split; try assumption.
  unfold Date.weekday at 1. rewrite E. subst o. unfold Date.weekday in *.
  Z.div_mod_to_equations. lia.
Qed.

Lemma digit_char_spec k :
  0 <= k <= 9 ->
  is_digit (digit_char k) = true /\ digit_val (digit_char k) = k
  /\ is_space (digit_char k) = false.
Proof.
  intros H.
  assert (C : k = 0 \/ k = 1 \/ k = 2 \/ k = 3 \/ k = 4 \/ k = 5 \/ k = 6
              \/ k = 7 \/ k = 8 \/ k = 9) by lia.
  repeat match goal with H : _ \/ _ |- _ => destruct H end;
    subst k; repeat split; reflexivity.
Qed.

Lemma day_alts_pad2 n rest :
  1 <= n <= 31 ->
  exists tl, day_alts (pad2 n ++ rest) = (n, rest) :: tl.
Proof.
  intros H.
  assert (C : exists i : nat, n = 1 + Z.of_nat i /\ (i < 31)%nat)
    by (exists (Z.to_nat (n - 1)); lia).
  destruct C as (i & -> & C).
  do 31 (destruct i as [|i]; [ eexists; reflexivity | ]).
  exfalso; lia.
Qed.

Lemma month_alts_pad2 n rest :
  1 <= n <= 12 ->
  exists tl, month_alts (pad2 n ++ rest) = (n, rest) :: tl.
Proof.
  intros H.
  assert (C : exists i : nat, n = 1 + Z.of_nat i /\ (i < 12)%nat)
    by (exists (Z.to_nat (n - 1)); lia).
  destruct C as (i & -> & C).
  do 12 (destruct i as [|i]; [ eexists; reflexivity | ]).
  exfalso; lia.
Qed.

Lemma year_alt_pad4 y :
  0 <= y <= 9999 -> year_alt (pad4 y) = Some (y, "").
Proof.
  intros H. unfold pad4, pad2. cbn [append year_alt].
  assert (B1 : 0 <= y / 1000 mod 10 <= 9) by (Z.div_mod_to_equations; lia).
  assert (B2 : 0 <= y / 100 mod 10 <= 9) by (Z.div_mod_to_equations; lia).
  assert (B3 : 0 <= y / 10 mod 10 <= 9) by (Z.div_mod_to_equations; lia).
  assert (B4 : 0 <= y mod 10 <= 9) by (Z.div_mod_to_equations; lia).
  destruct (digit_char_spec _ B1) as (-> & -> & _).
  destruct (digit_char_spec _ B2) as (-> & -> & _).
  destruct (digit_char_spec _ B3) as (-> & -> & _).
  destruct (digit_char_spec _ B4) as (-> & -> & _).
  cbn [andb]. do 2 f_equal. Z.div_mod_to_equations. lia.
Qed.

Lemma strptime_strftime d :
  Date.valid d = true -> strptime (strftime d) = Ok d.
Proof.
  intros Hv. pose proof Hv as Hv'. apply valid_iff in Hv' as (Hy & Hm & Hd).
  assert (Hd' : 1 <= Date.day d <= 31).
  { pose proof (days_before_month_bounds (Date.year d) _ _ Hm Hd).
    revert Hd. unfold Date.days_in_month.
    assert (C : Date.month d = 1 \/ Date.month d = 2 \/ Date.month d = 3 \/ Date.month d = 4 \/ Date.month d = 5 \/ Date.month d = 6 \/ Date.month d = 7
              \/ Date.month d = 8 \/ Date.month d = 9 \/ Date.month d = 10 \/ Date.month d = 11 \/ Date.month d = 12) by lia.
    repeat match goal with H : _ \/ _ |- _ => destruct H as [H|H] end;
      rewrite C; destruct (Date.is_leap (Date.year d));
      cbv beta iota delta [Date.DAYS_IN_MONTH]; zbool; cbn [andb]; lia. }
  unfold strptime, strftime, format_regex_match.
  destruct (day_alts_pad2 (Date.day d) ("." ++ pad2 (Date.month d) ++ "." ++ pad4 (Date.year d)) Hd') as [tl1 ->].
  cbn [first_some fst snd append expect_dot]. 
  change (Ascii.eqb "." ".") with true. cbv iota.
  destruct (month_alts_pad2 (Date.month d) ("." ++ pad4 (Date.year d)) Hm) as [tl2 E2].
  cbn [append] in E2. rewrite E2.
  cbn [first_some fst snd append expect_dot].
  change (Ascii.eqb "." ".") with true. cbv iota.
  rewrite year_alt_pad4 by lia.
  unfold Date.make, Date.MINYEAR, Date.MAXYEAR.
  destruct d as [y m dd]. cbn [Date.year Date.month Date.day] in *.
  repeat match goal with
         | |- context [?a <=? ?b] => replace (a <=? b) with true by (symmetry; apply Z.leb_le; lia)
         end.
  reflexivity.
Qed.

(** ** Patterns and value types *)

Lemma match_digits_sound n s r :
  match_atoms (repeat Digit n) s = Some r ->
  exists d, s = d ++ r /\ String.length d = n /\ all_digits d = true.
Proof.
  revert s. induction n as [|n IH]; intros s H; cbn in H.
  - exists "". inversion H. auto.
  - destruct s as [|c s']; [discriminate|].
    destruct (is_digit c) eqn:Hc; [|discriminate].
    destruct (IH _ H) as (d & -> & Hl & Hd).
    exists (String c d). cbn. rewrite Hc, Hl, Hd. auto.
Qed.

Lemma match_digits_complete d r :
  all_digits d = true ->
  match_atoms (repeat Digit (String.length d)) (d ++ r) = Some r.
Proof.
  induction d as [|c d IH]; cbn; intros H; [reflexivity|].
  apply andb_true_iff in H as [-> H]. auto.
Qed.

Lemma append_empty_r (s : string) : s ++ "" = s.
Proof. induction s as [|c s IH]; cbn; congruence. Qed.

Lemma length_append (s t : string) :
  String.length (s ++ t) = (String.length s + String.length t)%nat.
Proof. induction s as [|c s IH]; cbn; congruence. Qed.

Lemma ten_digits_iff s :
  ten_digits s = true <-> String.length s = 10%nat /\ all_digits s = true.
Proof. unfold ten_digits. rewrite andb_true_iff, Nat.eqb_eq. tauto. Qed.

(** What [^\d{10}$] accepts: ten digits, and ten digits followed by a
    line feed. *)
Lemma PH_PATTERN_match_iff s :
  re_match Phone.PH_PATTERN s = true <->
  ten_digits s = true
  \/ exists d, ten_digits d = true /\ s = d ++ String newline "".
Proof.
  unfold re_match, Phone.PH_PATTERN. split.
  - destruct (match_atoms (repeat Digit 10) s) as [r|] eqn:E; [|discriminate].
    apply match_digits_sound in E as (d & -> & Hl & Hd). intros Hr.
    assert (Ht : ten_digits d = true) by (apply ten_digits_iff; auto).
    destruct r as [|c [|c' r']]; cbn in Hr; try discriminate.
    + left. now rewrite append_empty_r.
    + right. exists d. apply Ascii.eqb_eq in Hr. subst c. auto.
  - intros [H | (d & H & ->)]; apply ten_digits_iff in H as [Hl Hd].
    + rewrite <- (append_empty_r s), <- Hl, match_digits_complete by assumption.
      reflexivity.
    + rewrite <- Hl, match_digits_complete by assumption. reflexivity.
Qed.

Lemma Phone_init_ok s :
  ten_digits s = true -> Phone.init s = Ok (Phone.mk s).
Proof.
  intros H. unfold Phone.init.
  replace (re_match Phone.PH_PATTERN s) with true; [reflexivity|].
  symmetry. apply PH_PATTERN_match_iff. auto.
Qed.

Lemma Phone_init_rejects s :
  ten_digits s = false ->
  (forall d, ten_digits d = true -> s <> d ++ String newline "") ->
  Phone.init s = Raise Phone.InvalidFormat.
Proof.
  intros H1 H2. unfold Phone.init.
  destruct (re_match Phone.PH_PATTERN s) eqn:E; [|reflexivity].
  apply PH_PATTERN_match_iff in E as [E | (d & Hd & E)].
  - congruence.
  - now apply H2 in E.
Qed.

Lemma Phone_eqb_eq (a b : Phone.t) : Phone.eqb a b = true <-> a = b.
Proof.
  destruct a as [x], b as [y]. unfold Phone.eqb. cbn.
  rewrite String.eqb_eq. split; congruence.
Qed.

Lemma contains_In x l : contains x l = true <-> In x l.
Proof.
  unfold contains. rewrite existsb_exists. split.
  - intros (y & Hy & E). apply Phone_eqb_eq in E. now subst.
  - intros H. exists x. split; [assumption|]. now apply Phone_eqb_eq.
Qed.

Lemma contains_not_In x l : contains x l = false <-> ~ In x l.
Proof.
  rewrite <- contains_In. destruct (contains x l); split; congruence.
Qed.

(** C6 (the code's behaviour at the failing input).  [Phone] accepts a
    string of eleven characters, ten digits followed by a line feed, and
    keeps it unchanged, although such a string is not "exactly 10
    digits": [$] also matches before a final line feed. *)
Theorem Phone_init_accepts_trailing_newline (d : string) :
  ten_digits d = true ->
  let s := d ++ String newline "" in
  ten_digits s = false
  /\ String.length s = 11%nat
  /\ Phone.init s = Ok (Phone.mk s).
Proof.
  intros H. cbv zeta.
  assert (Hl : String.length (d ++ String newline "") = 11%nat).
  { apply ten_digits_iff in H as [Hl _].
    rewrite length_append, Hl. reflexivity. }
  repeat split.
  - unfold ten_digits. rewrite Hl. reflexivity.
  - exact Hl.
  - unfold Phone.init.
    replace (re_match Phone.PH_PATTERN (d ++ String newline "")) with true;
      [reflexivity|].
    symmetry. apply PH_PATTERN_match_iff. right. eauto.
Qed.

Lemma Phone_init_accepts_trailing_newline_witness :
  let s := "1234567890" ++ String newline "" in
  ten_digits s = false
  /\ String.length s = 11%nat
  /\ Phone.init s = Ok (Phone.mk s).
Proof. apply (Phone_init_accepts_trailing_newline "1234567890"). reflexivity. Defined.

(** ** Record *)

Lemma add_phone_new r s :
  ten_digits s = true -> ~ In (Phone.mk s) (Record.phones r) ->
  Record.add_phone s r
  = (Ok tt, Record.set_phones r (Record.phones r ++ [Phone.mk s])).
Proof.
  intros Hs Hn. unfold Record.add_phone, bind, lift, get, put.
  rewrite (Phone_init_ok s Hs).
  apply contains_not_In in Hn. rewrite Hn. reflexivity.
Qed.

Lemma add_phone_present r s :
  ten_digits s = true -> In (Phone.mk s) (Record.phones r) ->
  Record.add_phone s r = (Raise Record.DuplicatePhone, r).
Proof.
  intros Hs Hn. unfold Record.add_phone, bind, lift, get, raise.
  rewrite (Phone_init_ok s Hs).
  apply contains_In in Hn. rewrite Hn. reflexivity.
Qed.

(** C8.  For a ten-digit phone, whatever the record: after a first
    [add_phone] a second one with the same string raises [DuplicatePhone]
    and the record after the failed call is the record before it.  The
    first call succeeds, appending the phone, when the record does not
    hold the phone yet. *)
Theorem add_phone_twice r s :
  ten_digits s = true ->
  let r1 := snd (Record.add_phone s r) in
  (~ In (Phone.mk s) (Record.phones r) ->
   Record.add_phone s r = (Ok tt, r1)
   /\ Record.phones r1 = (Record.phones r ++ [Phone.mk s])%list)
  /\ Record.add_phone s r1 = (Raise Record.DuplicatePhone, r1)
  /\ Record.phones (snd (Record.add_phone s r1)) = Record.phones r1.
Proof.
  intros Hs. cbv zeta.
  assert (Hdup : Record.add_phone s (snd (Record.add_phone s r))
                 = (Raise Record.DuplicatePhone, snd (Record.add_phone s r))).
  { apply add_phone_present; [assumption|].
    destruct (contains (Phone.mk s) (Record.phones r)) eqn:E.
    - apply contains_In in E.
      now rewrite (add_phone_present r s Hs E).
    - apply contains_not_In in E. rewrite (add_phone_new r s Hs E). cbn.
      apply in_or_app. right. now left. }
  split; [|split].
  - intros Hn. now rewrite (add_phone_new r s Hs Hn).
  - exact Hdup.
  - now rewrite Hdup.
Qed.

Lemma add_phone_twice_witness :
  let r := Record.init "Alice" in
  let r1 := snd (Record.add_phone "1234567890" r) in
  Record.add_phone "1234567890" r = (Ok tt, r1)
  /\ Record.phones r1 = [Phone.mk "1234567890"]
  /\ Record.add_phone "1234567890" r1 = (Raise Record.DuplicatePhone, r1).
Proof.
  cbv zeta.
  destruct (add_phone_twice (Record.init "Alice") "1234567890" eq_refl)
    as (H1 & H2 & _).
  destruct H1 as [H1 H1']; [cbn; tauto|].
  repeat split; assumption.
Defined.

(** C3 (the code's behaviour at the failing input).  A record built
    with [add_phone] alone holds two different phones; [edit_phone] of the
    first into the second succeeds and leaves the second phone twice in
    the list. *)
Theorem edit_phone_creates_duplicate :
  let r1 := snd (Record.add_phone "1111111111" (Record.init "Alice")) in
  let r2 := snd (Record.add_phone "2222222222" r1) in
  Record.phones r2 = [Phone.mk "1111111111"; Phone.mk "2222222222"]
  /\ NoDup (Record.phones r2)
  /\ Record.edit_phone "1111111111" "2222222222" r2
     = (Ok tt,
        Record.set_phones r2 [Phone.mk "2222222222"; Phone.mk "2222222222"])
  /\ ~ NoDup
       (Record.phones
          (snd (Record.edit_phone "1111111111" "2222222222" r2))).
Proof.
  cbv zeta. repeat split.
  - repeat constructor; cbn; intuition discriminate.
  - intros H. vm_compute in H. inversion H as [|x l Hin _]; subst.
    apply Hin. now left.
Qed.

Lemma find_phone_value old l :
  find (fun p => String.eqb (Phone.value p) old) l
  = if contains (Phone.mk old) l then Some (Phone.mk old) else None.
Proof.
  induction l as [|[v] l IH]; [reflexivity|].
  cbn. unfold Phone.eqb at 1. cbn.
  destruct (String.eqb_spec v old) as [->|ne]; [reflexivity|exact IH].
Qed.






(** C7 (the code's behaviour at the failing input).  After
    [add_phone], [add_phone] and [edit_phone] the list holds the same
    phone at the indices 0 and 1, which [add_phone] would have refused;
    editing that phone writes the new one at index 0, and index 1, which
    held the old phone, still holds it. *)
Lemma edit_phone_second_occurrence_kept :
  let r1 := snd (Record.add_phone "1111111111" (Record.init "Alice")) in
  let r2 := snd (Record.add_phone "2222222222" r1) in
  let r3 := snd (Record.edit_phone "1111111111" "2222222222" r2) in
  let r4 := snd (Record.edit_phone "2222222222" "3333333333" r3) in
  ten_digits "3333333333" = true
  /\ nth_error (Record.phones r3) 1 = Some (Phone.mk "2222222222")
  /\ fst (Record.edit_phone "2222222222" "3333333333" r3) = Ok tt
  /\ Record.phones r4 = [Phone.mk "3333333333"; Phone.mk "2222222222"]
  /\ nth_error (Record.phones r4) 1 <> Some (Phone.mk "3333333333").
Proof.
  cbv zeta. repeat split. vm_compute. discriminate.
Qed.

(** ** The address book as a dict *)

Lemma getitem_setitem key v data :
  AddressBook.getitem key (AddressBook.setitem key v data) = Some v.
Proof.
  induction data as [|[k r] data IH]; cbn.
  - now rewrite String.eqb_refl.
  - destruct (String.eqb k key) eqn:E; cbn; now rewrite E.
Qed.

Lemma setitem_setitem key u v data :
  AddressBook.setitem key v (AddressBook.setitem key u data)
  = AddressBook.setitem key v data.
Proof.
  induction data as [|[k r] data IH]; cbn.
  - now rewrite String.eqb_refl.
  - destruct (String.eqb k key) eqn:E; cbn; rewrite E; congruence.
Qed.

Lemma setitem_same key r data :
  AddressBook.getitem key data = Some r ->
  AddressBook.setitem key r data = data.
Proof.
  induction data as [|[k r0] data IH]; cbn; [discriminate|].
  destruct (String.eqb k key) eqn:E; intros H.
  - congruence.
  - now rewrite IH.
Qed.

Lemma setitem_absent key v data :
  AddressBook.getitem key data = None ->
  AddressBook.setitem key v data = (data ++ [(key, v)])%list.
Proof.
  induction data as [|[k r0] data IH]; cbn; [reflexivity|].
  destruct (String.eqb k key) eqn:E; intros H; [discriminate|].
  now rewrite IH.
Qed.

(** ** Stripping the joined phones *)

Lemma append_assoc (s t u : string) : (s ++ t) ++ u = s ++ (t ++ u).
Proof. induction s as [|c s IH]; cbn; congruence. Qed.

Lemma digit_not_space c : is_digit c = true -> is_space c = false.
Proof.
  unfold is_digit, is_space. generalize (N_of_ascii c). intros n H.
  apply andb_true_iff in H as [H1 H2].
  apply N.leb_le in H1. apply N.leb_le in H2.
  repeat match goal with
         | |- context [(?a <=? ?b)%N] => destruct (N.leb_spec a b)
         | |- context [(?a =? ?b)%N] => destruct (N.eqb_spec a b)
         end; cbn; try reflexivity; lia.
Qed.

Lemma lstrip_nonspace c s :
  is_space c = false -> lstrip (String c s) = String c s.
Proof. intros H. cbn. now rewrite H. Qed.

Lemma rstrip_nonspace c s :
  is_space c = false -> rstrip (s ++ String c "") = s ++ String c "".
Proof.
  intros H. induction s as [|a s IH].
  - cbn. now rewrite H.
  - cbn [append rstrip]. rewrite IH. now destruct s.
Qed.

Lemma all_digits_first s :
  all_digits s = true -> s <> "" ->
  exists c r, s = String c r /\ is_digit c = true.
Proof.
  destruct s as [|c r]; [congruence|]. cbn. intros H _.
  apply andb_true_iff in H as [H _]. eauto.
Qed.

Lemma all_digits_last s :
  all_digits s = true -> s <> "" ->
  exists q c, s = q ++ String c "" /\ is_digit c = true.
Proof.
  induction s as [|a s IH]; [congruence|]. cbn. intros H _.
  apply andb_true_iff in H as [Ha Hs].
  destruct s as [|b s'].
  - exists "", a. auto.
  - destruct (IH Hs ltac:(discriminate)) as (q & c & E & Hc).
    exists (String a q), c. cbn. rewrite <- E. auto.
Qed.

Lemma strip_two_phones p1 p2 :
  ten_digits p1 = true -> ten_digits p2 = true ->
  strip (p1 ++ "; " ++ p2) = p1 ++ "; " ++ p2.
Proof.
  intros H1 H2.
  apply ten_digits_iff in H1 as [L1 D1]. apply ten_digits_iff in H2 as [L2 D2].
  destruct (all_digits_first p1 D1) as (c & r & -> & Hc);
    [intros ->; discriminate|].
  destruct (all_digits_last p2 D2) as (q & c' & -> & Hc');
    [intros ->; discriminate|].
  assert (E : String c r ++ "; " ++ q ++ String c' ""
              = String c (r ++ "; " ++ q) ++ String c' "")
    by (cbn [append]; f_equal; rewrite append_assoc; reflexivity).
  rewrite E. unfold strip. cbn [append].
  rewrite (lstrip_nonspace c _ (digit_not_space c Hc)).
  apply (rstrip_nonspace c' (String c (r ++ String ";" (String " " q)))).
  apply digit_not_space, Hc'.
Qed.

(** ** Command handlers *)

(** C4 (counterexample).  [delete Bob] on the empty book does not
    display [Contact not found]. *)
Lemma delete_contact_missing_not_KeyError_text :
  delete_contact ["Bob"] AddressBook.empty
  = (Ok "No contact found", AddressBook.empty)
  /\ fst (delete_contact ["Bob"] AddressBook.empty) <> Ok "Contact not found".
Proof. split; [reflexivity|]. vm_compute. discriminate. Qed.

(** C4, as the code has it.  For a name the book does not hold, the
    delete handler displays [No contact found], the message of the
    [ValueError] it raises itself, and leaves the book unchanged. *)
Theorem delete_contact_missing book name rest :
  AddressBook.getitem name book = None ->
  delete_contact (name :: rest) book = (Ok "No contact found", book).
Proof.
  intros H.
  cbv beta iota delta [delete_contact input_error bind first_arg ret
                         AddressBook.find get].
  rewrite H. reflexivity.
Qed.

Lemma delete_contact_missing_witness :
  delete_contact ["Bob"] AddressBook.empty
  = (Ok "No contact found", AddressBook.empty).
Proof. apply (delete_contact_missing AddressBook.empty "Bob" []). reflexivity. Defined.

Lemma add_contact_new book name phone :
  AddressBook.getitem name book = None ->
  add_contact [name; phone] book
  = match Record.add_phone phone (Record.init name) with
    | (Ok _, record) =>
        (Ok "Contact added.", AddressBook.setitem name record book)
    | (Raise (ValueError msg), record) =>
        (Ok msg, AddressBook.setitem name record book)
    | (Raise IndexError, record) =>
        (Ok "Not enough arguments", AddressBook.setitem name record book)
    | (Raise KeyError, record) =>
        (Ok "Contact not found", AddressBook.setitem name record book)
    | (Raise e, record) => (Raise e, AddressBook.setitem name record book)
    end.
Proof.
  intros H.
  cbv beta iota delta [add_contact input_error bind unpack2 ret
                         AddressBook.find get AddressBook.add_record put
                         on_record].
  rewrite H. cbn [Record.init Record.name Name.init Name.value].
  destruct (Record.add_phone phone _) as [[u|[msg| | | |]] record];
    now rewrite setitem_setitem.
Qed.

Lemma add_contact_existing book name phone record :
  AddressBook.getitem name book = Some record ->
  add_contact [name; phone] book
  = match Record.add_phone phone record with
    | (Ok _, record') =>
        (Ok "Contact updated.", AddressBook.setitem name record' book)
    | (Raise (ValueError msg), record') =>
        (Ok msg, AddressBook.setitem name record' book)
    | (Raise IndexError, record') =>
        (Ok "Not enough arguments", AddressBook.setitem name record' book)
    | (Raise KeyError, record') =>
        (Ok "Contact not found", AddressBook.setitem name record' book)
    | (Raise e, record') => (Raise e, AddressBook.setitem name record' book)
    end.
Proof.
  intros H.
  cbv beta iota delta [add_contact input_error bind unpack2 ret
                         AddressBook.find get on_record].
  rewrite H.
  now destruct (Record.add_phone phone _) as [[u|[msg| | | |]] record'].
Qed.

(** C9.  On a book without the name, [add] with a ten-digit phone
    displays [Contact added.] and the book then holds a record of that
    name with this one phone; a second [add] with the same name and
    another ten-digit phone displays [Contact updated.] and the record
    holds both phones in that order; [phone] then displays the two phones
    joined by a semicolon and a space.  The scenario of the specification
    is the last conjunct. *)
Theorem add_add_phone_scenario :
  (forall book name p1 p2,
      AddressBook.getitem name book = None ->
      ten_digits p1 = true -> ten_digits p2 = true -> p1 <> p2 ->
      let record1 := Record.mk (Name.mk name) [Phone.mk p1] None in
      let record2 := Record.mk (Name.mk name) [Phone.mk p1; Phone.mk p2] None in
      let book1 := AddressBook.setitem name record1 book in
      let book2 := AddressBook.setitem name record2 book in
      add_contact [name; p1] book = (Ok "Contact added.", book1)
      /\ AddressBook.getitem name book1 = Some record1
      /\ book1 = (book ++ [(name, record1)])%list
      /\ add_contact [name; p2] book1 = (Ok "Contact updated.", book2)
      /\ AddressBook.getitem name book2 = Some record2
      /\ show_phone [name] book2 = (Ok (p1 ++ "; " ++ p2), book2))
  /\ (let r1 := add_contact ["Alice"; "1234567890"] AddressBook.empty in
      let r2 := add_contact ["Alice"; "0987654321"] (snd r1) in
      let r3 := show_phone ["Alice"] (snd r2) in
      fst r1 = Ok "Contact added."
      /\ fst r2 = Ok "Contact updated."
      /\ fst r3 = Ok "1234567890; 0987654321").
Proof.
  split; [|cbv zeta; repeat split].
  intros book name p1 p2 Hnone H1 H2 Hne. cbv zeta.
  assert (G1 : AddressBook.getitem name
                 (AddressBook.setitem name
                    (Record.mk (Name.mk name) [Phone.mk p1] None) book)
               = Some (Record.mk (Name.mk name) [Phone.mk p1] None))
    by apply getitem_setitem.
  split; [|split; [|split; [|split; [|split]]]].
  - rewrite (add_contact_new _ _ _ Hnone), add_phone_new; auto.
  - exact G1.
  - now apply setitem_absent.
  - rewrite (add_contact_existing _ _ _ _ G1), add_phone_new; auto.
    + now rewrite setitem_setitem.
    + cbn. intros [E|[]]. congruence.
  - apply getitem_setitem.
  - cbv beta iota delta [show_phone input_error bind first_arg ret
                           AddressBook.find get].
    rewrite getitem_setitem. cbn [Record.phones map Phone.value join].
    now rewrite strip_two_phones.
Qed.

Lemma add_add_phone_scenario_witness :
  show_phone ["Alice"]
    (AddressBook.setitem "Alice"
       (Record.mk (Name.mk "Alice")
          [Phone.mk "1234567890"; Phone.mk "0987654321"] None)
       AddressBook.empty)
  = (Ok "1234567890; 0987654321",
     AddressBook.setitem "Alice"
       (Record.mk (Name.mk "Alice")
          [Phone.mk "1234567890"; Phone.mk "0987654321"] None)
       AddressBook.empty).
Proof.
  apply (proj1 add_add_phone_scenario
           AddressBook.empty "Alice" "1234567890" "0987654321").
  - reflexivity.
  - reflexivity.
  - reflexivity.
  - discriminate.
Defined.

(** C10.  [add] with a name the book does not hold and a phone that
    does not match the pattern of [Phone] displays the message of
    [InvalidFormat], and the book has nevertheless changed: it now ends
    with a record of that name that has no phone and no birthday.  Every
    string that is not ten digits, ten digits followed by a line feed
    apart, is such a phone. *)
Theorem add_contact_malformed_phone_inserts_record book name phone :
  AddressBook.getitem name book = None ->
  re_match Phone.PH_PATTERN phone = false ->
  let book' := AddressBook.setitem name (Record.init name) book in
  add_contact [name; phone] book
  = (Ok "Phone number must contain exactly 10 digits.", book')
  /\ book' = (book ++ [(name, Record.init name)])%list
  /\ book' <> book
  /\ AddressBook.getitem name book' = Some (Record.init name)
  /\ Record.phones (Record.init name) = [].
Proof.
  intros Hnone Hbad. cbv zeta.
  split; [|split; [|split; [|split]]].
  - rewrite (add_contact_new _ _ _ Hnone).
    unfold Record.add_phone, bind, lift, Phone.init.
    now rewrite Hbad.
  - now apply setitem_absent.
  - rewrite (setitem_absent _ _ _ Hnone). intros E.
    apply (f_equal (@length _)) in E. rewrite length_app in E. cbn in E. lia.
  - apply getitem_setitem.
  - reflexivity.
Qed.

Lemma add_contact_malformed_phone_inserts_record_witness :
  add_contact ["Bob"; "12345"] AddressBook.empty
  = (Ok "Phone number must contain exactly 10 digits.",
     [("Bob", Record.init "Bob")]).
Proof.
  apply (add_contact_malformed_phone_inserts_record
           AddressBook.empty "Bob" "12345"); reflexivity.
Defined.

(** ** Upcoming birthdays *)

Lemma make_valid y m d dt :
  Date.make y m d = Ok dt -> dt = Date.mk y m d /\ Date.valid dt = true.
Proof.
  unfold Date.make, Date.valid.
  destruct ((Date.MINYEAR <=? y) && (y <=? Date.MAXYEAR)) eqn:E1;
    [|discriminate].
  destruct ((1 <=? m) && (m <=? 12)) eqn:E2; [|discriminate].
  destruct ((1 <=? d) && (d <=? Date.days_in_month y m)) eqn:E3;
    [|discriminate].
  cbn [negb]. intros H. inversion H; subst. cbn [Date.year Date.month Date.day].
  apply andb_true_iff in E1 as [-> ->], E2 as [-> ->], E3 as [-> ->]. auto.
Qed.

Lemma strptime_valid s d : strptime s = Ok d -> Date.valid d = true.
Proof.
  unfold strptime.
  destruct (format_regex_match s) as [[[[dd m] y] rest]|]; [|discriminate].
  destruct rest; [|discriminate].
  intros H. now apply make_valid in H.
Qed.

Lemma for_each_raises {A B : Type} (f : A -> res (list B)) l a :
  In a l -> (exists e, f a = Raise e) -> exists e, for_each f l = Raise e.
Proof.
  intros Hin [e He]. induction l as [|x l IH]; [contradiction|].
  cbn. destruct Hin as [->|Hin].
  - rewrite He. eauto.
  - destruct (f x) as [bs|e']; [|eauto].
    destruct (IH Hin) as [e' ->]. eauto.
Qed.

(** C1 (the code's behaviour at the failing input).  A book that
    holds a record without a birthday makes [get_upcoming_birthdays]
    raise: no list is returned, whatever the other records are. *)
Theorem get_upcoming_birthdays_raises_without_birthday today book record :
  In record (AddressBook.values book) ->
  Record.birthday record = None ->
  exists e, AddressBook.get_upcoming_birthdays today book = Raise e.
Proof.
  intros Hin Hnone. unfold AddressBook.get_upcoming_birthdays.
  apply (for_each_raises _ _ record Hin).
  exists AttributeError. unfold AddressBook.upcoming_of_record.
  now rewrite Hnone.
Qed.

Lemma get_upcoming_birthdays_raises_without_birthday_witness :
  exists e,
    AddressBook.get_upcoming_birthdays (Date.mk 2024 6 10)
      (snd (add_contact ["Alice"; "1234567890"] AddressBook.empty))
    = Raise e.
Proof.
  apply (get_upcoming_birthdays_raises_without_birthday
           (Date.mk 2024 6 10)
           (snd (add_contact ["Alice"; "1234567890"] AddressBook.empty))
           (Record.mk (Name.mk "Alice") [Phone.mk "1234567890"] None)).
  - cbn. auto.
  - reflexivity.
Defined.

(** The exception is [AttributeError], which [input_error] does not
    turn into a message. *)
Example get_upcoming_birthdays_AttributeError :
  AddressBook.get_upcoming_birthdays (Date.mk 2024 6 10)
    (snd (add_contact ["Alice"; "1234567890"] AddressBook.empty))
  = Raise AttributeError
  /\ input_error (fun book : AddressBook.t => (Raise AttributeError, book))
       AddressBook.empty
     = (Raise AttributeError, AddressBook.empty).
Proof. split; reflexivity. Qed.

(** C5.  For a candidate date [d] that [strptime] reads from the
    day-and-month string and a year, and that lies 0 to 7 days after
    today: on Monday to Friday the entry carries the candidate string
    itself, which reads back as [d]; on Saturday and Sunday it carries the
    formatted date [7 - weekday] days later, which is a Monday and reads
    back as that date.  The two scenarios with the reference date
    2024-06-10 are the last two conjuncts. *)
Theorem upcoming_congratulation_date :
  (forall today name ddmm year d,
      strptime (ddmm ++ "." ++ str_int year) = Ok d ->
      0 <= Date.days_between d today <= 7 ->
      (Date.weekday d <= 4 ->
       AddressBook.candidate today name ddmm year
       = Ok [mk_upcoming name (ddmm ++ "." ++ str_int year)])
      /\ (5 <= Date.weekday d ->
          exists monday,
            AddressBook.candidate today name ddmm year
            = Ok [mk_upcoming name (strftime monday)]
            /\ Date.toordinal monday
               = Date.toordinal d + (7 - Date.weekday d)
            /\ Date.weekday monday = 0
            /\ strptime (strftime monday) = Ok monday))
  /\ (let book1 := snd (add_contact ["Alice"; "1234567890"] AddressBook.empty) in
      let book2 := snd (add_birthday ["Alice"; "15.06.1990"] book1) in
      Date.weekday (Date.mk 2024 6 10) = 0
      /\ Date.weekday (Date.mk 2024 6 15) = 5
      /\ AddressBook.get_upcoming_birthdays (Date.mk 2024 6 10) book2
         = Ok [mk_upcoming "Alice" "17.06.2024"])
  /\ (let book1 := snd (add_contact ["Alice"; "1234567890"] AddressBook.empty) in
      let book2 := snd (add_birthday ["Alice"; "12.06.1990"] book1) in
      Date.weekday (Date.mk 2024 6 12) = 2
      /\ AddressBook.get_upcoming_birthdays (Date.mk 2024 6 10) book2
         = Ok [mk_upcoming "Alice" "12.06.2024"]).
Proof.
  split; [|split; cbv zeta; repeat split].
  intros today name ddmm year d Hparse Hdiff.
  pose proof (strptime_valid _ _ Hparse) as Hv.
  pose proof (weekday_range d) as Hw.
  unfold AddressBook.candidate. cbv zeta. rewrite Hparse.
  replace ((0 <=? Date.days_between d today)
           && (Date.days_between d today <=? 7)) with true
    by (symmetry; apply andb_true_iff; split; apply Z.leb_le; lia).
  split.
  - intros Hwd.
    replace ((0 <=? Date.weekday d) && (Date.weekday d <=? 4)) with true
      by (symmetry; apply andb_true_iff; split; apply Z.leb_le; lia).
    reflexivity.
  - intros Hwd.
    replace ((0 <=? Date.weekday d) && (Date.weekday d <=? 4)) with false
      by (symmetry; apply andb_false_iff; right; apply Z.leb_gt; lia).
    destruct (weekend_rolls_to_monday d Hv Hwd) as (monday & -> & Vm & Om & Wm).
    exists monday. repeat split; try assumption.
    now apply strptime_strftime.
Qed.

Lemma upcoming_congratulation_date_witness :
  (exists monday,
      AddressBook.candidate (Date.mk 2024 6 10) "Alice" "15.06" 2024
      = Ok [mk_upcoming "Alice" (strftime monday)]
      /\ Date.toordinal monday
         = Date.toordinal (Date.mk 2024 6 15)
           + (7 - Date.weekday (Date.mk 2024 6 15))
      /\ Date.weekday monday = 0
      /\ strptime (strftime monday) = Ok monday)
  /\ AddressBook.candidate (Date.mk 2024 6 10) "Alice" "12.06" 2024
     = Ok [mk_upcoming "Alice" "12.06.2024"].
Proof.
  split.
  - apply (proj1 upcoming_congratulation_date
             (Date.mk 2024 6 10) "Alice" "15.06" 2024 (Date.mk 2024 6 15)).
    + reflexivity.
    + vm_compute. split; discriminate.
    + vm_compute. discriminate.
  - apply (proj1 upcoming_congratulation_date
             (Date.mk 2024 6 10) "Alice" "12.06" 2024 (Date.mk 2024 6 12)).
    + reflexivity.
    + vm_compute. split; discriminate.
    + vm_compute. discriminate.
Defined.

(** ** Birthdays *)

Lemma digit_char_mod n :
  is_digit (digit_char (n mod 10)) = true
  /\ is_space (digit_char (n mod 10)) = false.
Proof.
  assert (B : 0 <= n mod 10 <= 9) by (Z.div_mod_to_equations; lia).
  destruct (digit_char_spec _ B) as (H1 & _ & H2). auto.
Qed.

Lemma strftime_matches_BD_PATTERN d :
  re_match Birthday.BD_PATTERN (strftime d) = true.
Proof.
  unfold re_match, Birthday.BD_PATTERN, strftime, pad4, pad2.
  cbn [append match_atoms atom_ok].
  rewrite !(proj1 (digit_char_mod _)).
  reflexivity.
Qed.

Lemma strip_strftime d : strip (strftime d) = strftime d.
Proof.
  unfold strip, strftime, pad4, pad2. cbn [append].
  rewrite lstrip_nonspace by apply digit_char_mod.
  match goal with
  | |- rstrip (String ?a1 (String ?a2 (String ?a3 (String ?a4 (String ?a5
         (String ?a6 (String ?a7 (String ?a8 (String ?a9
           (String ?a10 "")))))))))) = _ =>
      apply (rstrip_nonspace a10
               (String a1 (String a2 (String a3 (String a4 (String a5
                  (String a6 (String a7 (String a8 (String a9 ""))))))))))
  end.
  apply digit_char_mod.
Qed.

Lemma Birthday_init_strftime d :
  Date.valid d = true -> Birthday.init (strftime d) = Ok (Birthday.mk d).
Proof.
  intros Hv. unfold Birthday.init.
  rewrite strftime_matches_BD_PATTERN, strip_strftime.
  now rewrite (strptime_strftime d Hv).
Qed.

Lemma make_raises_ValueError y m d e :
  Date.make y m d = Raise e -> exists msg, e = ValueError msg.
Proof.
  unfold Date.make.
  repeat match goal with
         | |- context [if ?b then _ else _] => destruct b
         end; intros H; inversion H; eauto.
Qed.

Lemma strptime_raises_ValueError s e :
  strptime s = Raise e -> exists msg, e = ValueError msg.
Proof.
  unfold strptime.
  destruct (format_regex_match s) as [[[[dd m] y] rest]|].
  - destruct rest.
    + apply make_raises_ValueError.
    + intros H. inversion H. eauto.
  - intros H. inversion H. eauto.
Qed.

Lemma Birthday_init_raises value e :
  Birthday.init value = Raise e -> e = Birthday.InvalidFormat.
Proof.
  unfold Birthday.init.
  destruct (re_match Birthday.BD_PATTERN value); cbn [negb].
  - destruct (strptime (strip value)) as [d|e'] eqn:E; [discriminate|].
    apply strptime_raises_ValueError in E as [msg ->]. congruence.
  - congruence.
Qed.

(** C2 (counterexample).  [Record.add_birthday] on a record that already
    has a birthday does not fail: it returns, and the stored birthday is
    the new one. *)
Lemma Record_add_birthday_overwrites :
  let r := snd (Record.add_birthday "01.01.2000" (Record.init "Alice")) in
  Record.birthday r = Some (Birthday.mk (Date.mk 2000 1 1))
  /\ fst (Record.add_birthday "02.02.2002" r) = Ok tt
  /\ Record.birthday (snd (Record.add_birthday "02.02.2002" r))
     = Some (Birthday.mk (Date.mk 2002 2 2))
  /\ Record.birthday (snd (Record.add_birthday "02.02.2002" r))
     <> Record.birthday r.
Proof. cbv zeta. repeat split. vm_compute. discriminate. Qed.

(** C2, as the code has it.  The write-once rule is the guard of the
    [add-birthday] handler: for a contact whose birthday is present the
    handler displays [Birthday already given] for any string and leaves
    the book unchanged; for a contact without a birthday it stores a valid
    date written as [DD.MM.YYYY] and displays [Birthday added], and for a
    string that [Birthday] rejects it displays the message of
    [InvalidFormat] and leaves the book unchanged.  [Record.add_birthday]
    has no such guard: it stores a valid date whether or not a birthday is
    present, and on a rejected string it raises [InvalidFormat] and leaves
    the record unchanged. *)
Theorem add_birthday_write_once_in_handler book name record :
  AddressBook.getitem name book = Some record ->
  (forall b value,
      Record.birthday record = Some b ->
      add_birthday [name; value] book = (Ok "Birthday already given", book))
  /\ (forall d,
         Record.birthday record = None -> Date.valid d = true ->
         add_birthday [name; strftime d] book
         = (Ok "Birthday added",
            AddressBook.setitem name
              (Record.set_birthday record (Some (Birthday.mk d))) book))
  /\ (forall value e,
         Record.birthday record = None -> Birthday.init value = Raise e ->
         add_birthday [name; value] book
         = (Ok "Invalid date format. Use DD.MM.YYYY", book))
  /\ (forall d,
         Date.valid d = true ->
         Record.add_birthday (strftime d) record
         = (Ok tt, Record.set_birthday record (Some (Birthday.mk d))))
  /\ (forall value e,
         Birthday.init value = Raise e ->
         Record.add_birthday value record
         = (Raise Birthday.InvalidFormat, record)).
Proof.
  intros Hget.
  assert (Hrec_ok : forall d, Date.valid d = true ->
            Record.add_birthday (strftime d) record
            = (Ok tt, Record.set_birthday record (Some (Birthday.mk d)))).
  { intros d Hv. unfold Record.add_birthday, bind, lift, get, put.
    now rewrite (Birthday_init_strftime d Hv). }
  assert (Hrec_bad : forall value e, Birthday.init value = Raise e ->
            Record.add_birthday value record
            = (Raise Birthday.InvalidFormat, record)).
  { intros value e He. unfold Record.add_birthday, bind, lift.
    rewrite He. now rewrite (Birthday_init_raises _ _ He). }
  split; [|split; [|split; [|split]]]; try assumption.
  - intros b value Hb.
    cbv beta iota delta [add_birthday input_error bind unpack2 ret
                           AddressBook.find get raise].
    now rewrite Hget, Hb.
  - intros d Hnone Hv.
    cbv beta iota delta [add_birthday input_error bind unpack2 ret
                           AddressBook.find get on_record].
    now rewrite Hget, Hnone, (Hrec_ok d Hv).
  - intros value e Hnone He.
    cbv beta iota delta [add_birthday input_error bind unpack2 ret
                           AddressBook.find get on_record].
    rewrite Hget, Hnone, (Hrec_bad value e He).
    now rewrite (setitem_same _ _ _ Hget).
Qed.

Lemma add_birthday_write_once_in_handler_witness :
  let alice1 := Record.mk (Name.mk "Alice") [Phone.mk "1234567890"] None in
  let alice2 :=
    Record.set_birthday alice1 (Some (Birthday.mk (Date.mk 1990 6 15))) in
  let book1 := [("Alice", alice1)] in
  let book2 := [("Alice", alice2)] in
  add_birthday ["Alice"; "16.07.1991"] book2
  = (Ok "Birthday already given", book2)
  /\ add_birthday ["Alice"; strftime (Date.mk 1990 6 15)] book1
     = (Ok "Birthday added", book2)
  /\ add_birthday ["Alice"; "31.02.2024"] book1
     = (Ok "Invalid date format. Use DD.MM.YYYY", book1).
Proof.
  intros alice1 alice2 book1 book2. split; [|split].
  - apply (proj1 (add_birthday_write_once_in_handler
                    book2 "Alice" alice2 eq_refl)
             (Birthday.mk (Date.mk 1990 6 15))).
    reflexivity.
  - apply (proj1 (proj2 (add_birthday_write_once_in_handler
                           book1 "Alice" alice1 eq_refl))
             (Date.mk 1990 6 15));
      reflexivity.
  - apply (proj1 (proj2 (proj2 (add_birthday_write_once_in_handler
                                  book1 "Alice" alice1 eq_refl)))
             "31.02.2024" Birthday.InvalidFormat).
    + reflexivity.
    + reflexivity.
Defined.

(** ** The invariants of a record's phone list *)

Lemma list_remove_In x l l' y :
  list_remove x l = Some l' -> In y l' -> In y l.
Proof.
  revert l'. induction l as [|a l IH]; cbn; intros l' H Hy; [discriminate|].
  destruct (Phone.eqb a x).
  - inversion H; subst. now right.
  - destruct (list_remove x l) as [l''|]; [|discriminate].
    inversion H; subst. destruct Hy as [->|Hy]; [now left|].
    right. now apply (IH l'').
Qed.

Lemma list_remove_NoDup x l l' :
  list_remove x l = Some l' -> NoDup l -> NoDup l'.
Proof.
  revert l'. induction l as [|a l IH]; cbn; intros l' H Hn; [discriminate|].
  inversion Hn as [|a' l0 Ha Hl]; subst.
  destruct (Phone.eqb a x).
  - now inversion H; subst.
  - destruct (list_remove x l) as [l''|] eqn:E; [|discriminate].
    inversion H; subst. constructor.
    + intros Hin. apply Ha. now apply (list_remove_In x l l'').
    + now apply IH.
Qed.

(** X1.  [add_phone] and [delete_phone] keep a phone list free of
    equal phones, whether they return or raise. *)
Theorem add_phone_delete_phone_keep_NoDup r phone :
  NoDup (Record.phones r) ->
  NoDup (Record.phones (snd (Record.add_phone phone r)))
  /\ NoDup (Record.phones (snd (Record.delete_phone phone r))).
Proof.
  intros Hn. split.
  - unfold Record.add_phone, bind, lift, get, put, raise.
    destruct (Phone.init phone) as [p|e]; [|assumption].
    destruct (contains p (Record.phones r)) eqn:E; cbn; [assumption|].
    apply contains_not_In in E.
    apply NoDup_app; [assumption|repeat constructor; intros []|].
    intros a Ha [<-|[]]. contradiction.
  - unfold Record.delete_phone, Record.find_phone, bind, get, put, raise, ret.
    destruct (find _ (Record.phones r)) as [p|]; [|assumption].
    destruct (list_remove p (Record.phones r)) as [l|] eqn:E; cbn;
      [|assumption].
    now apply (list_remove_NoDup p (Record.phones r)).
Qed.

Lemma add_phone_delete_phone_keep_NoDup_witness :
  let r := Record.mk (Name.mk "Alice")
             [Phone.mk "1111111111"; Phone.mk "2222222222"] None in
  NoDup (Record.phones (snd (Record.add_phone "3333333333" r)))
  /\ NoDup (Record.phones (snd (Record.delete_phone "3333333333" r))).
Proof.
  apply (add_phone_delete_phone_keep_NoDup
           (Record.mk (Name.mk "Alice")
              [Phone.mk "1111111111"; Phone.mk "2222222222"] None)
           "3333333333").
  repeat constructor; cbn; intuition discriminate.
Defined.

Lemma Phone_init_well_formed s p : Phone.init s = Ok p -> well_formed p.
Proof.
  unfold Phone.init, well_formed.
  destruct (re_match Phone.PH_PATTERN s) eqn:E; cbn; [|discriminate].
  intros H. now inversion H.
Qed.

Lemma list_setitem_Forall {A : Type} (P : A -> Prop) i v l l' :
  list_setitem i v l = Some l' -> P v -> Forall P l -> Forall P l'.
Proof.
  revert i l'. induction l as [|a l IH]; intros [|i] l' H Hv Hl; cbn in H;
    try discriminate; inversion Hl; subst.
  - inversion H; subst. now constructor.
  - destruct (list_setitem i v l) as [l''|] eqn:E; [|discriminate].
    inversion H; subst. constructor; [assumption|]. now apply (IH i).
Qed.

(** X2.  Every phone of a record matches the pattern of [Phone] after
    [add_phone], [edit_phone] and [delete_phone], if every phone did
    before. *)
Theorem record_operations_keep_phone_format r a b :
  Forall well_formed (Record.phones r) ->
  Forall well_formed (Record.phones (snd (Record.add_phone a r)))
  /\ Forall well_formed (Record.phones (snd (Record.edit_phone a b r)))
  /\ Forall well_formed (Record.phones (snd (Record.delete_phone a r))).
Proof.
  intros Hf. split; [|split].
  - unfold Record.add_phone, bind, lift, get, put, raise.
    destruct (Phone.init a) as [p|e] eqn:E; [|assumption].
    destruct (contains p (Record.phones r)); cbn; [assumption|].
    apply Forall_app. split; [assumption|].
    constructor; [|constructor]. now apply (Phone_init_well_formed a).
  - unfold Record.edit_phone, Record.find_phone, bind, lift, get, put, raise,
      ret.
    destruct (find _ (Record.phones r)) as [p|]; [|assumption].
    destruct (Phone.init b) as [q|e] eqn:E; [|assumption].
    destruct (list_index p (Record.phones r)) as [i|]; [|assumption].
    destruct (list_setitem i q (Record.phones r)) as [l|] eqn:El; cbn;
      [|assumption].
    apply (list_setitem_Forall _ i q (Record.phones r)); auto.
    now apply (Phone_init_well_formed b).
  - unfold Record.delete_phone, Record.find_phone, bind, get, put, raise, ret.
    destruct (find _ (Record.phones r)) as [p|]; [|assumption].
    destruct (list_remove p (Record.phones r)) as [l|] eqn:E; cbn;
      [|assumption].
    rewrite Forall_forall in *. intros y Hy.
    apply Hf. now apply (list_remove_In p (Record.phones r) l).
Qed.

Lemma record_operations_keep_phone_format_witness :
  let r := Record.mk (Name.mk "Alice") [Phone.mk "1111111111"] None in
  Forall well_formed
    (Record.phones (snd (Record.add_phone "2222222222" r)))
  /\ Forall well_formed
       (Record.phones (snd (Record.edit_phone "2222222222" "12" r)))
  /\ Forall well_formed
       (Record.phones (snd (Record.delete_phone "2222222222" r))).
Proof.
  apply (record_operations_keep_phone_format
           (Record.mk (Name.mk "Alice") [Phone.mk "1111111111"] None)
           "2222222222" "12").
  repeat constructor.
Defined.

(** ** Reading a birthday back *)

Lemma digit_char_val a :
  is_digit a = true -> digit_char (digit_val a) = a /\ 0 <= digit_val a <= 9.
Proof.
  destruct a as [[] [] [] [] [] [] [] []]; intros H;
    try discriminate H; split; try reflexivity; cbv; split; discriminate.
Qed.

Lemma pad2_digits a b :
  is_digit a = true -> is_digit b = true ->
  pad2 (10 * digit_val a + digit_val b) = String a (String b "").
Proof.
  intros Ha Hb.
  destruct (digit_char_val a Ha) as [Ea Ba], (digit_char_val b Hb) as [Eb Bb].
  unfold pad2.
  replace ((10 * digit_val a + digit_val b) / 10 mod 10) with (digit_val a)
    by (Z.div_mod_to_equations; lia).
  replace ((10 * digit_val a + digit_val b) mod 10) with (digit_val b)
    by (Z.div_mod_to_equations; lia).
  now rewrite Ea, Eb.
Qed.

Lemma pad4_digits a b c d :
  is_digit a = true -> is_digit b = true ->
  is_digit c = true -> is_digit d = true ->
  pad4 (1000 * digit_val a + 100 * digit_val b + 10 * digit_val c + digit_val d)
  = String a (String b (String c (String d ""))).
Proof.
  intros Ha Hb Hc Hd.
  destruct (digit_char_val a Ha) as [Ea Ba], (digit_char_val b Hb) as [Eb Bb],
    (digit_char_val c Hc) as [Ec Bc], (digit_char_val d Hd) as [Ed Bd].
  unfold pad4, pad2.
  set (n := 1000 * digit_val a + 100 * digit_val b + 10 * digit_val c + digit_val d).
  replace (n / 1000 mod 10) with (digit_val a)
    by (subst n; Z.div_mod_to_equations; lia).
  replace (n / 100 mod 10) with (digit_val b)
    by (subst n; Z.div_mod_to_equations; lia).
  replace (n / 10 mod 10) with (digit_val c)
    by (subst n; Z.div_mod_to_equations; lia).
  replace (n mod 10) with (digit_val d)
    by (subst n; Z.div_mod_to_equations; lia).
  now rewrite Ea, Eb, Ec, Ed.
Qed.

Lemma digit_not_dot c :
  is_digit c = true ->
  Ascii.eqb c "." = false /\ Ascii.eqb c " " = false.
Proof.
  destruct c as [[] [] [] [] [] [] [] []]; intros H;
    try discriminate H; split; reflexivity.
Qed.

Lemma match_atoms_cons a p s r :
  match_atoms (a :: p) s = Some r ->
  exists c s', s = String c s' /\ atom_ok a c = true
               /\ match_atoms p s' = Some r.
Proof.
  cbn. destruct s as [|c s']; [discriminate|].
  destruct (atom_ok a c) eqn:E; [|discriminate]. eauto.
Qed.

Lemma BD_PATTERN_shape s :
  re_match Birthday.BD_PATTERN s = true ->
  exists a1 a2 b1 b2 y1 y2 y3 y4 rest,
    s = String a1 (String a2 (String "." (String b1 (String b2 (String "."
          (String y1 (String y2 (String y3 (String y4 rest)))))))))
    /\ is_digit a1 = true /\ is_digit a2 = true
    /\ is_digit b1 = true /\ is_digit b2 = true
    /\ is_digit y1 = true /\ is_digit y2 = true
    /\ is_digit y3 = true /\ is_digit y4 = true
    /\ (rest = "" \/ rest = String newline "").
Proof.
  unfold re_match, Birthday.BD_PATTERN.
  destruct (match_atoms _ s) as [rest|] eqn:E; [|discriminate].
  intros Hrest.
  repeat match type of E with
         | match_atoms (_ :: _) _ = Some _ =>
             apply match_atoms_cons in E as (? & ? & -> & ? & E)
         end.
  cbn in E. inversion E; subst.
  repeat match goal with
         | H : atom_ok (Lit _) _ = true |- _ =>
             cbn in H; apply Ascii.eqb_eq in H; subst
         | H : atom_ok Digit _ = true |- _ => cbn [atom_ok] in H
         end.
  do 9 eexists. split; [reflexivity|]. repeat (split; [assumption|]).
  destruct rest as [|c [|c' r']]; cbn in Hrest; try discriminate; auto.
  apply Ascii.eqb_eq in Hrest. subst. auto.
Qed.

Lemma strptime_ten_chars a1 a2 b1 b2 y1 y2 y3 y4 d :
  is_digit a1 = true -> is_digit a2 = true ->
  is_digit b1 = true -> is_digit b2 = true ->
  is_digit y1 = true -> is_digit y2 = true ->
  is_digit y3 = true -> is_digit y4 = true ->
  strptime (String a1 (String a2 (String "." (String b1 (String b2 (String "."
              (String y1 (String y2 (String y3 (String y4 "")))))))))) = Ok d ->
  d = Date.mk (1000 * digit_val y1 + 100 * digit_val y2
               + 10 * digit_val y3 + digit_val y4)
        (10 * digit_val b1 + digit_val b2)
        (10 * digit_val a1 + digit_val a2).
Proof.
  intros A1 A2 B1 B2 Y1 Y2 Y3 Y4.
  destruct (digit_not_dot a1 A1) as [_ Sa1].
  destruct (digit_not_dot a2 A2) as [Da2 _].
  destruct (digit_not_dot b2 B2) as [Db2 _].
  unfold strptime, format_regex_match, day_alts, month_alts, year_alt.
  rewrite ?A2, ?Sa1.
  repeat first
    [ progress cbn [andb app first_some fst snd expect_dot]
    | progress (change (Ascii.eqb "." ".") with true; cbv iota)
    | progress rewrite ?Da2, ?Db2, ?Y1, ?Y2, ?Y3, ?Y4
    | match goal with
      | |- context [if ?c then [_] else []] => destruct c
      end ];
    try discriminate;
    intros H; apply make_valid in H as [-> _]; reflexivity.
Qed.

Lemma strip_ten_chars a1 a2 a3 a4 a5 a6 a7 a8 a9 a10 rest :
  is_digit a1 = true -> is_digit a10 = true ->
  rest = "" \/ rest = String newline "" ->
  strip (String a1 (String a2 (String a3 (String a4 (String a5 (String a6
           (String a7 (String a8 (String a9 (String a10 rest))))))))))
  = String a1 (String a2 (String a3 (String a4 (String a5 (String a6
           (String a7 (String a8 (String a9 (String a10 ""))))))))).
Proof.
  intros H1 H10 Hrest. apply digit_not_space in H1, H10.
  unfold strip. rewrite lstrip_nonspace by assumption.
  destruct Hrest as [-> | ->].
  - apply (rstrip_nonspace a10
             (String a1 (String a2 (String a3 (String a4 (String a5 (String a6
                (String a7 (String a8 (String a9 ""))))))))) H10).
  - cbn [rstrip]. change (is_space newline) with true. cbv iota.
    now rewrite H10.
Qed.

(** X3.  [Birthday] and the display format are inverse to each other:
    a valid date written [DD.MM.YYYY] is read as that date, and a string
    that [Birthday] accepts is its date written [DD.MM.YYYY], possibly
    followed by a line feed. *)
Theorem Birthday_round_trip :
  (forall d,
      Date.valid d = true -> Birthday.init (strftime d) = Ok (Birthday.mk d))
  /\ (forall s b,
         Birthday.init s = Ok b ->
         Date.valid (Birthday.value b) = true
         /\ (s = strftime (Birthday.value b)
             \/ s = strftime (Birthday.value b) ++ String newline "")).
Proof.
  split; [exact Birthday_init_strftime|].
  intros s b. unfold Birthday.init.
  destruct (re_match Birthday.BD_PATTERN s) eqn:E; cbn [negb]; [|discriminate].
  apply BD_PATTERN_shape in E
    as (a1 & a2 & b1 & b2 & y1 & y2 & y3 & y4 & rest & -> & A1 & A2 & B1 & B2
        & Y1 & Y2 & Y3 & Y4 & Hrest).
  rewrite (strip_ten_chars a1 a2 "." b1 b2 "." y1 y2 y3 y4 rest A1 Y4 Hrest).
  destruct (strptime _) as [d|[msg| | | |]] eqn:P; try discriminate.
  intros H. inversion H; subst b. cbn [Birthday.value].
  split; [now apply (strptime_valid _ _ P)|].
  apply strptime_ten_chars in P; try assumption. subst d.
  unfold strftime. cbn [Date.year Date.month Date.day].
  rewrite (pad2_digits a1 a2 A1 A2), (pad2_digits b1 b2 B1 B2),
    (pad4_digits y1 y2 y3 y4 Y1 Y2 Y3 Y4).
  destruct Hrest as [-> | ->]; [left|right]; reflexivity.
Qed.

Lemma Birthday_round_trip_witness :
  Birthday.init (strftime (Date.mk 1990 6 15))
  = Ok (Birthday.mk (Date.mk 1990 6 15))
  /\ ("15.06.1990" = strftime (Date.mk 1990 6 15)
      \/ "15.06.1990" = strftime (Date.mk 1990 6 15) ++ String newline "").
Proof.
  split.
  - apply (proj1 Birthday_round_trip (Date.mk 1990 6 15)). reflexivity.
  - apply (proj2 Birthday_round_trip "15.06.1990"
             (Birthday.mk (Date.mk 1990 6 15))).
    reflexivity.
Defined.

(** ** The candidates of a record *)

Lemma expect_dot_digit {B : Type} (k : string -> option B) c r :
  is_digit c = true -> expect_dot k (String c r) = None.
Proof.
  intros H. cbn. now rewrite (proj1 (digit_not_dot c H)).
Qed.

Lemma first_some_none {A B : Type} (f : A -> option B) l :
  Forall (fun a => f a = None) l -> first_some f l = None.
Proof.
  induction 1 as [|a l Ha _ IH]; cbn; [reflexivity|]. now rewrite Ha.
Qed.

Lemma day_alts_pad2_tail n rest :
  1 <= n <= 31 ->
  exists tl,
    day_alts (pad2 n ++ rest) = (n, rest) :: tl
    /\ Forall starts_with_digit tl.
Proof.
  intros H.
  assert (C : exists i : nat, n = 1 + Z.of_nat i /\ (i < 31)%nat)
    by (exists (Z.to_nat (n - 1)); lia).
  destruct C as (i & -> & C).
  do 31 (destruct i as [|i];
         [ eexists; split; [reflexivity|];
           repeat constructor; eexists; eexists; split; reflexivity | ]).
  exfalso; lia.
Qed.

Lemma month_alts_pad2_tail n rest :
  1 <= n <= 12 ->
  exists tl,
    month_alts (pad2 n ++ rest) = (n, rest) :: tl
    /\ Forall starts_with_digit tl.
Proof.
  intros H.
  assert (C : exists i : nat, n = 1 + Z.of_nat i /\ (i < 12)%nat)
    by (exists (Z.to_nat (n - 1)); lia).
  destruct C as (i & -> & C).
  do 12 (destruct i as [|i];
         [ eexists; split; [reflexivity|];
           repeat constructor; eexists; eexists; split; reflexivity | ]).
  exfalso; lia.
Qed.

Lemma format_regex_match_padded d m ys :
  1 <= d <= 31 -> 1 <= m <= 12 ->
  format_regex_match (pad2 d ++ "." ++ pad2 m ++ "." ++ ys)
  = match year_alt ys with
    | Some (y, rest) => Some (d, m, y, rest)
    | None => None
    end.
Proof.
  intros Hd Hm. unfold format_regex_match.
  destruct (day_alts_pad2_tail d ("." ++ pad2 m ++ "." ++ ys) Hd)
    as (tl1 & -> & F1).
  destruct (month_alts_pad2_tail m ("." ++ ys) Hm) as (tl2 & E2 & F2).
  cbn [first_some fst snd append expect_dot].
  change (Ascii.eqb "." ".") with true. cbv iota.
  cbn [append] in E2. rewrite E2.
  cbn [first_some fst snd append expect_dot].
  change (Ascii.eqb "." ".") with true. cbv iota.
  destruct (year_alt ys) as [[y rest]|]; [reflexivity|].
  rewrite first_some_none.
  - apply first_some_none.
    eapply Forall_impl; [|exact F1].
    intros e (c & r & -> & Hc). now apply expect_dot_digit.
  - eapply Forall_impl; [|exact F2].
    intros e (c & r & -> & Hc). now apply expect_dot_digit.
Qed.

Lemma year_strings y :
  1 <= y <= 9999 -> year_string_ok y = true.
Proof.
  intros H.
  assert (A : forallb (fun k => year_string_ok (1 + Z.of_nat k)) (seq 0 (Z.to_nat 9999))
              = true) by (vm_compute; reflexivity).
  rewrite forallb_forall in A.
  specialize (A (Z.to_nat (y - 1))).
  replace (1 + Z.of_nat (Z.to_nat (y - 1))) with y in A by lia.
  apply A. apply in_seq. lia.
Qed.

Lemma str_int_four_digits y : 1000 <= y <= 9999 -> str_int y = pad4 y.
Proof.
  intros H. pose proof (year_strings y ltac:(lia)) as A.
  unfold year_string_ok in A.
  replace (y <? 1000) with false in A by (symmetry; apply Z.ltb_ge; lia).
  now apply String.eqb_eq.
Qed.

Lemma str_int_short y : 1 <= y <= 999 -> year_alt (str_int y) = None.
Proof.
  intros H. pose proof (year_strings y ltac:(lia)) as A.
  unfold year_string_ok in A.
  replace (y <? 1000) with true in A by (symmetry; apply Z.ltb_lt; lia).
  now destruct (year_alt (str_int y)).
Qed.

Lemma valid_day_month d :
  Date.valid d = true -> 1 <= Date.day d <= 31 /\ 1 <= Date.month d <= 12.
Proof.
  intros Hv. apply valid_iff in Hv as (_ & Hm & Hd). split; [|assumption].
  revert Hd. unfold Date.days_in_month.
  assert (C : Date.month d = 1 \/ Date.month d = 2 \/ Date.month d = 3
              \/ Date.month d = 4 \/ Date.month d = 5 \/ Date.month d = 6
              \/ Date.month d = 7 \/ Date.month d = 8 \/ Date.month d = 9
              \/ Date.month d = 10 \/ Date.month d = 11 \/ Date.month d = 12)
    by lia.
  repeat match goal with H : _ \/ _ |- _ => destruct H as [H|H] end;
    rewrite C; destruct (Date.is_leap (Date.year d));
    cbv beta iota delta [Date.DAYS_IN_MONTH]; zbool; cbn [andb]; lia.
Qed.

(** What [strptime] makes of the candidate string of a day, a month and
    a year between 1 and 10000. *)
Lemma strptime_candidate d m y :
  1 <= d <= 31 -> 1 <= m <= 12 -> 1 <= y <= 10000 ->
  strptime ((pad2 d ++ "." ++ pad2 m) ++ "." ++ str_int y)
  = if (1000 <=? y) && (y <=? 9999) then Date.make y m d
    else if y <? 1000 then
      Raise (ValueError
               ("time data '" ++ ((pad2 d ++ "." ++ pad2 m) ++ "." ++ str_int y)
                ++ "' does not match format '%d.%m.%Y'"))
    else Raise (ValueError "unconverted data remains: 0").
Proof.
  intros Hd Hm Hy. unfold strptime.
  replace ((pad2 d ++ "." ++ pad2 m) ++ "." ++ str_int y)
    with (pad2 d ++ "." ++ pad2 m ++ "." ++ str_int y)
    by (now rewrite !append_assoc).
  rewrite (format_regex_match_padded d m _ Hd Hm).
  destruct (Z.ltb_spec y 1000) as [Hlt|Hge].
  - replace (1000 <=? y) with false by (symmetry; apply Z.leb_gt; lia).
    cbn [andb]. now rewrite str_int_short by lia.
  - destruct (Z.leb_spec y 9999) as [Hle|Hgt].
    + replace (1000 <=? y) with true by (symmetry; apply Z.leb_le; lia).
      cbn [andb]. rewrite str_int_four_digits, year_alt_pad4 by lia.
      reflexivity.
    + replace (1000 <=? y) with true by (symmetry; apply Z.leb_le; lia).
      cbn [andb]. assert (y = 10000) as -> by lia. reflexivity.
Qed.

Lemma digit_char_mod_not_dot n : Ascii.eqb (digit_char (n mod 10)) "." = false.
Proof. apply digit_not_dot, digit_char_mod. Qed.

(** The day-and-month part that [get_upcoming_birthdays] cuts out of the
    formatted birthday. *)
Lemma ddmm_of_strftime b :
  join "." (removelast (split "." (strftime b)))
  = pad2 (Date.day b) ++ "." ++ pad2 (Date.month b).
Proof.
  unfold strftime, pad4, pad2. cbn [append split].
  rewrite !digit_char_mod_not_dot.
  change (Ascii.eqb "." ".") with true. cbv iota.
  reflexivity.
Qed.

Lemma days_before_year_succ y :
  1 <= y ->
  Date.days_before_year (y + 1)
  = Date.days_before_year y + 365 + (if Date.is_leap y then 1 else 0).
Proof.
  intros Hy. unfold Date.days_before_year, Date.is_leap. cbv zeta.
  zbool; cbn [andb orb negb]; Z.div_mod_to_equations; lia.
Qed.

Lemma next_year_gap y m d :
  1 <= y -> 365 <= Date.ymd2ord (y + 1) m d - Date.ymd2ord y m d <= 366.
Proof.
  intros Hy. unfold Date.ymd2ord, Date.days_before_month.
  rewrite (days_before_year_succ y Hy).
  assert (L : Date.is_leap y = true -> Date.is_leap (y + 1) = false).
  { unfold Date.is_leap. zbool; cbn [andb orb negb]; intros H;
      try discriminate H; try reflexivity;
      exfalso; Z.div_mod_to_equations; lia. }
  destruct (Date.is_leap y), (Date.is_leap (y + 1)), (2 <? m);
    cbn [andb]; try lia; specialize (L eq_refl); discriminate.
Qed.

Lemma day_fits_every_year b y :
  Date.valid b = true ->
  ~ (Date.month b = 2 /\ Date.day b = 29) ->
  Date.day b <= Date.days_in_month y (Date.month b).
Proof.
  intros Hv Hn. apply valid_iff in Hv as (_ & Hm & Hd).
  revert Hd. unfold Date.days_in_month.
  destruct (Z.eqb_spec (Date.month b) 2) as [E|E].
  - rewrite E in *. cbv beta iota delta [Date.DAYS_IN_MONTH].
    destruct (Date.is_leap (Date.year b)), (Date.is_leap y); cbn [andb]; lia.
  - cbn [andb]. lia.
Qed.

Lemma make_ok y m d :
  1 <= y <= 9999 -> 1 <= m <= 12 -> 1 <= d <= Date.days_in_month y m ->
  Date.make y m d = Ok (Date.mk y m d).
Proof.
  intros Hy Hm Hd. unfold Date.make, Date.MINYEAR, Date.MAXYEAR.
  repeat match goal with
         | |- context [?a <=? ?b] =>
             replace (a <=? b) with true by (symmetry; apply Z.leb_le; lia)
         end.
  reflexivity.
Qed.

Lemma candidate_by_dates today name b y :
  Date.valid b = true ->
  1000 <= y <= 9999 ->
  Date.day b <= Date.days_in_month y (Date.month b) ->
  AddressBook.candidate today name
    (pad2 (Date.day b) ++ "." ++ pad2 (Date.month b)) y
  = Ok (occurrence_entry today name b y).
Proof.
  intros Hv Hy Hfit.
  destruct (valid_day_month b Hv) as [Hd Hm].
  unfold AddressBook.candidate, occurrence_entry. cbv zeta.
  rewrite (strptime_candidate _ _ y Hd Hm ltac:(lia)).
  replace ((1000 <=? y) && (y <=? 9999)) with true
    by (symmetry; apply andb_true_iff; split; apply Z.leb_le; lia).
  rewrite make_ok by lia.
  set (c := Date.mk y (Date.month b) (Date.day b)).
  assert (Vc : Date.valid c = true)
    by (apply valid_iff; subst c; cbn [Date.year Date.month Date.day]; lia).
  pose proof (weekday_range c) as Hw.
  destruct ((0 <=? Date.days_between c today)
            && (Date.days_between c today <=? 7)); [|reflexivity].
  unfold roll_to_monday.
  destruct (Z.leb_spec (Date.weekday c) 4) as [Hwd|Hwd].
  - replace (0 <=? Date.weekday c) with true
      by (symmetry; apply Z.leb_le; lia).
    cbn [andb]. do 3 f_equal.
    unfold strftime. subst c. cbn [Date.year Date.month Date.day].
    now rewrite str_int_four_digits, !append_assoc by lia.
  - rewrite andb_false_r.
    destruct (weekend_rolls_to_monday c Vc ltac:(lia)) as (monday & E & _).
    rewrite E. unfold Date.add_days in E.
    destruct ((0 <? _) && _) in E; [|discriminate].
    now inversion E.
Qed.

(** The result for one record, said with dates: the occurrence of the
    birthday in the year of the reference date and the one in the year
    after, each kept when 0 to 7 days ahead and moved off the weekend. *)
Lemma upcoming_of_record_by_dates today record b :
  Date.valid today = true ->
  1000 <= Date.year today <= 9998 ->
  Record.birthday record = Some b ->
  Date.valid (Birthday.value b) = true ->
  ~ (Date.month (Birthday.value b) = 2 /\ Date.day (Birthday.value b) = 29) ->
  AddressBook.upcoming_of_record today record
  = Ok (occurrence_entry today (Name.value (Record.name record))
          (Birthday.value b) (Date.year today)
        ++ occurrence_entry today (Name.value (Record.name record))
             (Birthday.value b) (Date.year today + 1))%list.
Proof.
  intros Ht Hy Hb Hv Hn. unfold AddressBook.upcoming_of_record.
  rewrite Hb. cbv zeta. rewrite ddmm_of_strftime. cbn [for_each].
  rewrite !candidate_by_dates; try assumption; try lia;
    try (now apply day_fits_every_year).
  now rewrite app_nil_r.
Qed.

Lemma for_each_Ok_inv {A B : Type} (f : A -> res (list B)) l out :
  for_each f l = Ok out ->
  forall e, In e out -> exists a bs, In a l /\ f a = Ok bs /\ In e bs.
Proof.
  revert out. induction l as [|a l IH]; cbn; intros out H e He.
  - inversion H; subst. contradiction.
  - destruct (f a) as [bs|] eqn:Ea; [|discriminate].
    destruct (for_each f l) as [cs|]; [|discriminate].
    inversion H; subst. apply in_app_or in He as [He|He].
    + exists a, bs. auto.
    + destruct (IH cs eq_refl e He) as (a' & bs' & Hin & Hf & Hb).
      exists a', bs'. auto.
Qed.

Lemma for_each_Raise_inv {A B : Type} (f : A -> res (list B)) l e :
  for_each f l = Raise e -> exists a, In a l /\ f a = Raise e.
Proof.
  induction l as [|a l IH]; cbn; [discriminate|].
  destruct (f a) as [bs|e'] eqn:Ea.
  - destruct (for_each f l) as [cs|e'']; [discriminate|].
    intros H. inversion H; subst.
    destruct (IH eq_refl) as (a' & Hin & Hf). eauto.
  - intros H. inversion H; subst. eauto.
Qed.

Lemma for_each_all_Ok {A B : Type} (f : A -> res (list B)) (g : A -> list B) l :
  Forall (fun a => f a = Ok (g a)) l -> for_each f l = Ok (flat_map g l).
Proof.
  induction 1 as [|a l Ha _ IH]; cbn; [reflexivity|]. now rewrite Ha, IH.
Qed.

Lemma candidate_entries today n ddmm y l :
  AddressBook.candidate today n ddmm y = Ok l ->
  Forall (entry_ok today n) l /\ (length l <= 1)%nat.
Proof.
  unfold AddressBook.candidate. cbv zeta.
  destruct (strptime (ddmm ++ "." ++ str_int y)) as [d|] eqn:P; [|discriminate].
  pose proof (strptime_valid _ _ P) as Vd.
  pose proof (weekday_range d) as Hw.
  destruct (Z.leb_spec 0 (Date.days_between d today)) as [H0|H0];
    [|intros H; inversion H; subst; cbn; auto].
  destruct (Z.leb_spec (Date.days_between d today) 7) as [H7|H7];
    [|intros H; inversion H; subst; cbn; auto].
  cbn [andb].
  destruct (Z.leb_spec (Date.weekday d) 4) as [Hwd|Hwd].
  - replace (0 <=? Date.weekday d) with true
      by (symmetry; apply Z.leb_le; lia).
    cbn [andb]. intros H. inversion H; subst.
    split; [|cbn; lia]. constructor; [|constructor].
    split; [reflexivity|]. exists d. cbn [congratulation_date].
    repeat split; try assumption; lia.
  - rewrite andb_false_r.
    destruct (weekend_rolls_to_monday d Vd ltac:(lia))
      as (monday & -> & Vm & Om & Wm).
    intros H. inversion H; subst.
    split; [|cbn; lia]. constructor; [|constructor].
    split; [reflexivity|]. exists monday. cbn [congratulation_date].
    rewrite (strptime_strftime monday Vm).
    unfold Date.days_between in *. repeat split; lia.
Qed.

Lemma candidate_raises_ValueError today n ddmm y e :
  AddressBook.candidate today n ddmm y = Raise e ->
  exists msg, e = ValueError msg.
Proof.
  unfold AddressBook.candidate. cbv zeta.
  destruct (strptime (ddmm ++ "." ++ str_int y)) as [d|e'] eqn:P.
  - pose proof (strptime_valid _ _ P) as Vd.
    pose proof (weekday_range d) as Hw.
    destruct ((0 <=? _) && (_ <=? 7)); [|discriminate].
    destruct (Z.leb_spec (Date.weekday d) 4) as [Hwd|Hwd].
    + replace (0 <=? Date.weekday d) with true
        by (symmetry; apply Z.leb_le; lia).
      discriminate.
    + rewrite andb_false_r.
      destruct (weekend_rolls_to_monday d Vd ltac:(lia)) as (monday & -> & _).
      discriminate.
  - intros H. inversion H; subst. now apply (strptime_raises_ValueError _ _ P).
Qed.

Lemma upcoming_of_record_entries today record l :
  AddressBook.upcoming_of_record today record = Ok l ->
  Forall (entry_ok today (Name.value (Record.name record))) l.
Proof.
  unfold AddressBook.upcoming_of_record.
  destruct (Record.birthday record) as [b|]; [|discriminate].
  cbv zeta. intros H. apply Forall_forall. intros e He.
  destruct (for_each_Ok_inv _ _ _ H e He) as (y & bs & _ & Hc & Hb).
  apply candidate_entries in Hc as [Hc _].
  rewrite Forall_forall in Hc. auto.
Qed.

(** X4.  Every entry of the list [get_upcoming_birthdays] returns
    carries the name of a record of the book, and its congratulation date
    reads as a date from Monday to Friday that is today at the earliest
    and 9 days ahead at the latest. *)
Theorem upcoming_entries_are_working_days today book l :
  AddressBook.get_upcoming_birthdays today book = Ok l ->
  Forall
    (fun e =>
       exists record,
         In record (AddressBook.values book)
         /\ entry_ok today (Name.value (Record.name record)) e) l.
Proof.
  unfold AddressBook.get_upcoming_birthdays. intros H.
  apply Forall_forall. intros e He.
  destruct (for_each_Ok_inv _ _ _ H e He) as (record & bs & Hin & Hr & Hb).
  exists record. split; [assumption|].
  apply upcoming_of_record_entries in Hr. rewrite Forall_forall in Hr. auto.
Qed.

Lemma upcoming_entries_are_working_days_witness :
  let alice :=
    Record.mk (Name.mk "Alice") []
      (Some (Birthday.mk (Date.mk 1990 6 15))) in
  Forall
    (fun e =>
       exists record,
         In record [alice]
         /\ entry_ok (Date.mk 2024 6 10) (Name.value (Record.name record)) e)
    [mk_upcoming "Alice" "17.06.2024"].
Proof.
  apply (upcoming_entries_are_working_days
           (Date.mk 2024 6 10)
           [("Alice",
             Record.mk (Name.mk "Alice") []
               (Some (Birthday.mk (Date.mk 1990 6 15))))]).
  reflexivity.
Defined.

Lemma candidate_nonempty today n b y l :
  Date.valid b = true -> 1 <= y <= 10000 ->
  AddressBook.candidate today n
    (pad2 (Date.day b) ++ "." ++ pad2 (Date.month b)) y = Ok l ->
  l <> [] ->
  0 <= Date.ymd2ord y (Date.month b) (Date.day b) - Date.toordinal today <= 7.
Proof.
  intros Hv Hy. destruct (valid_day_month b Hv) as [Hd Hm].
  unfold AddressBook.candidate. cbv zeta.
  rewrite (strptime_candidate _ _ y Hd Hm Hy).
  destruct ((1000 <=? y) && (y <=? 9999)).
  - destruct (Date.make y (Date.month b) (Date.day b)) as [c|] eqn:E;
      [|discriminate].
    apply make_valid in E as [-> _].
    set (c := Date.mk y (Date.month b) (Date.day b)).
    change (Date.ymd2ord y (Date.month b) (Date.day b) - Date.toordinal today)
      with (Date.days_between c today).
    destruct (Z.leb_spec 0 (Date.days_between c today)) as [W0|W0];
      cbn [andb]; [|intros Q Hne; inversion Q; subst; congruence].
    destruct (Z.leb_spec (Date.days_between c today) 7) as [W7|W7];
      cbn [andb]; [|intros Q Hne; inversion Q; subst; congruence].
    intros _ _. lia.
  - destruct (y <? 1000); discriminate.
Qed.

(** X5.  A record gets at most one entry: its birthday's occurrence
    this year and the one next year are at least 365 days apart, so they
    are never both 0 to 7 days ahead.  The list for a book is therefore
    no longer than the book. *)
Theorem upcoming_at_most_one_per_record today :
  Date.valid today = true ->
  (forall record b l,
      Record.birthday record = Some b ->
      Date.valid (Birthday.value b) = true ->
      AddressBook.upcoming_of_record today record = Ok l ->
      (length l <= 1)%nat)
  /\ (forall book l,
         Forall (fun record =>
                   forall b, Record.birthday record = Some b ->
                             Date.valid (Birthday.value b) = true)
           (AddressBook.values book) ->
         AddressBook.get_upcoming_birthdays today book = Ok l ->
         (length l <= length book)%nat).
Proof.
  intros Ht.
  assert (One : forall record b l,
             Record.birthday record = Some b ->
             Date.valid (Birthday.value b) = true ->
             AddressBook.upcoming_of_record today record = Ok l ->
             (length l <= 1)%nat).
  { intros record b l Hb Hv. unfold AddressBook.upcoming_of_record.
    rewrite Hb. cbv zeta. rewrite ddmm_of_strftime. cbn [for_each].
    apply valid_iff in Ht as (Hy & _).
    set (ddmm := pad2 _ ++ "." ++ pad2 _).
    destruct (AddressBook.candidate today _ ddmm (Date.year today))
      as [l1|] eqn:E1; [|discriminate].
    destruct (AddressBook.candidate today _ ddmm (Date.year today + 1))
      as [l2|] eqn:E2; [|discriminate].
    intros H. inversion H; subst l. rewrite app_nil_r, length_app.
    pose proof (proj2 (candidate_entries _ _ _ _ _ E1)) as L1.
    pose proof (proj2 (candidate_entries _ _ _ _ _ E2)) as L2.
    destruct l1 as [|e1 l1]; [cbn; lia|].
    destruct l2 as [|e2 l2]; [cbn in *; lia|].
    exfalso.
    pose proof (candidate_nonempty today _ (Birthday.value b)
                  (Date.year today) _ Hv ltac:(lia) E1
                  ltac:(discriminate)) as W1.
    pose proof (candidate_nonempty today _ (Birthday.value b)
                  (Date.year today + 1) _ Hv ltac:(lia) E2
                  ltac:(discriminate)) as W2.
    pose proof (next_year_gap (Date.year today)
                  (Date.month (Birthday.value b))
                  (Date.day (Birthday.value b)) ltac:(lia)) as G.
    lia. }
  split; [exact One|].
  intros book l. unfold AddressBook.get_upcoming_birthdays, AddressBook.values.
  revert l. induction book as [|[k r] book IH]; cbn; intros l Hall H.
  - inversion H. cbn. lia.
  - inversion Hall as [|r' rs Hr Hrest]; subst.
    destruct (AddressBook.upcoming_of_record today r) as [bs|] eqn:E;
      [|discriminate].
    destruct (for_each _ (map snd book)) as [cs|]; [|discriminate].
    inversion H; subst. rewrite length_app.
    specialize (IH cs Hrest eq_refl).
    assert ((length bs <= 1)%nat).
    { unfold AddressBook.upcoming_of_record in E.
      destruct (Record.birthday r) as [b|] eqn:Hb; [|discriminate].
      apply (One r b bs Hb (Hr b eq_refl)).
      unfold AddressBook.upcoming_of_record. now rewrite Hb. }
    lia.
Qed.

Lemma upcoming_at_most_one_per_record_witness :
  AddressBook.upcoming_of_record (Date.mk 2024 12 30)
    (Record.mk (Name.mk "Alice") [] (Some (Birthday.mk (Date.mk 1990 1 2))))
  = Ok [mk_upcoming "Alice" "02.01.2025"]
  /\ (length [mk_upcoming "Alice" "02.01.2025"] <= 1)%nat.
Proof.
  split; [reflexivity|].
  apply (proj1 (upcoming_at_most_one_per_record (Date.mk 2024 12 30) eq_refl)
           (Record.mk (Name.mk "Alice") []
              (Some (Birthday.mk (Date.mk 1990 1 2))))
           (Birthday.mk (Date.mk 1990 1 2))); reflexivity.
Defined.

Lemma candidate_day_out_of_range today n b y :
  1 <= Date.day b <= 31 -> 1 <= Date.month b <= 12 -> 1 <= y <= 10000 ->
  Date.days_in_month y (Date.month b) < Date.day b ->
  exists msg,
    AddressBook.candidate today n
      (pad2 (Date.day b) ++ "." ++ pad2 (Date.month b)) y
    = Raise (ValueError msg).
Proof.
  intros Hd Hm Hy Hbig. unfold AddressBook.candidate. cbv zeta.
  rewrite (strptime_candidate _ _ y Hd Hm Hy).
  destruct ((1000 <=? y) && (y <=? 9999)) eqn:E.
  - apply andb_true_iff in E as [E1 E2].
    apply Z.leb_le in E1. apply Z.leb_le in E2.
    unfold Date.make, Date.MINYEAR, Date.MAXYEAR.
    replace (1 <=? y) with true by (symmetry; apply Z.leb_le; lia).
    replace (y <=? 9999) with true by (symmetry; apply Z.leb_le; lia).
    replace (1 <=? Date.month b) with true by (symmetry; apply Z.leb_le; lia).
    replace (Date.month b <=? 12) with true by (symmetry; apply Z.leb_le; lia).
    replace (Date.day b <=? Date.days_in_month y (Date.month b)) with false
      by (symmetry; apply Z.leb_gt; lia).
    rewrite andb_false_r. cbn [andb negb]. eauto.
  - destruct (y <? 1000); eauto.
Qed.

(** X6.  A birthday on 29 February makes the record's turn raise
    [ValueError] on every reference date: of two years in a row at least
    one has no such day, and [strptime] refuses its candidate.  A book
    that holds such a record therefore never gets a list. *)
Theorem leap_day_birthday_always_raises today :
  Date.valid today = true ->
  (forall record b,
      Record.birthday record = Some b ->
      Date.month (Birthday.value b) = 2 ->
      Date.day (Birthday.value b) = 29 ->
      exists msg,
        AddressBook.upcoming_of_record today record = Raise (ValueError msg))
  /\ (forall book record b,
         In record (AddressBook.values book) ->
         Record.birthday record = Some b ->
         Date.month (Birthday.value b) = 2 ->
         Date.day (Birthday.value b) = 29 ->
         exists e, AddressBook.get_upcoming_birthdays today book = Raise e).
Proof.
  intros Ht.
  assert (One : forall record b,
             Record.birthday record = Some b ->
             Date.month (Birthday.value b) = 2 ->
             Date.day (Birthday.value b) = 29 ->
             exists msg,
               AddressBook.upcoming_of_record today record
               = Raise (ValueError msg)).
  { intros record b Hb Hm Hd. unfold AddressBook.upcoming_of_record.
    rewrite Hb. cbv zeta. rewrite ddmm_of_strftime. cbn [for_each].
    apply valid_iff in Ht as (Hy & _).
    assert (Short : forall y, Date.is_leap y = false ->
              Date.days_in_month y (Date.month (Birthday.value b))
              < Date.day (Birthday.value b)).
    { intros y Hl. unfold Date.days_in_month. rewrite Hm, Hd, Hl.
      cbn. lia. }
    assert (L : Date.is_leap (Date.year today) = true ->
                Date.is_leap (Date.year today + 1) = false).
    { unfold Date.is_leap. zbool; cbn [andb orb negb]; intros H;
        try discriminate H; try reflexivity;
        exfalso; Z.div_mod_to_equations; lia. }
    destruct (Date.is_leap (Date.year today)) eqn:Hl.
    - destruct (AddressBook.candidate today _ _ (Date.year today))
        as [l1|e1] eqn:E1.
      + destruct (candidate_day_out_of_range today
                    (Name.value (Record.name record)) (Birthday.value b)
                    (Date.year today + 1)) as [msg ->]; try lia.
        * now apply Short, L.
        * eauto.
      + apply candidate_raises_ValueError in E1 as [msg ->]. eauto.
    - destruct (candidate_day_out_of_range today
                  (Name.value (Record.name record)) (Birthday.value b)
                  (Date.year today)) as [msg ->]; try lia.
      + now apply Short.
      + eauto. }
  split; [exact One|].
  intros book record b Hin Hb Hm Hd.
  unfold AddressBook.get_upcoming_birthdays.
  apply (for_each_raises _ _ record Hin).
  destruct (One record b Hb Hm Hd) as [msg E]. eauto.
Qed.

Lemma leap_day_birthday_always_raises_witness :
  exists msg,
    AddressBook.upcoming_of_record (Date.mk 2024 2 25)
      (Record.mk (Name.mk "Alice") []
         (Some (Birthday.mk (Date.mk 2000 2 29))))
    = Raise (ValueError msg).
Proof.
  apply (proj1 (leap_day_birthday_always_raises (Date.mk 2024 2 25) eq_refl)
           _ (Birthday.mk (Date.mk 2000 2 29))); reflexivity.
Defined.

(** X7.  With a reference date in the years 1000 to 9998 and a book
    in which every record has a birthday other than 29 February,
    [get_upcoming_birthdays] returns, and what it returns is, record by
    record in the order of the book, the occurrence of the birthday this
    year and the one next year, each kept when it is 0 to 7 days ahead
    and moved to the following Monday when it falls on a weekend. *)
Theorem get_upcoming_birthdays_by_dates today book :
  Date.valid today = true ->
  1000 <= Date.year today <= 9998 ->
  Forall plain_birthday (AddressBook.values book) ->
  AddressBook.get_upcoming_birthdays today book
  = Ok (upcoming_by_dates today book).
Proof.
  intros Ht Hy Hall.
  unfold AddressBook.get_upcoming_birthdays, upcoming_by_dates.
  apply for_each_all_Ok.
  eapply Forall_impl; [|exact Hall].
  intros record (b & Hb & Hv & Hn).
  rewrite Hb. now apply upcoming_of_record_by_dates.
Qed.

Lemma get_upcoming_birthdays_by_dates_witness :
  let book :=
    [("Alice",
      Record.mk (Name.mk "Alice") [] (Some (Birthday.mk (Date.mk 1990 6 15))));
     ("Bob",
      Record.mk (Name.mk "Bob") [] (Some (Birthday.mk (Date.mk 1985 6 30))))] in
  AddressBook.get_upcoming_birthdays (Date.mk 2024 6 10) book
  = Ok (upcoming_by_dates (Date.mk 2024 6 10) book)
  /\ upcoming_by_dates (Date.mk 2024 6 10) book
     = [mk_upcoming "Alice" "17.06.2024"].
Proof.
  split; [|reflexivity].
  apply (get_upcoming_birthdays_by_dates (Date.mk 2024 6 10)).
  - reflexivity.
  - cbn. lia.
  - repeat constructor;
      eexists; (split; [reflexivity|]); (split; [reflexivity|]);
      cbn; intros [H _]; discriminate.
Defined.

Lemma upcoming_of_record_raises today record e :
  AddressBook.upcoming_of_record today record = Raise e ->
  (e = AttributeError /\ Record.birthday record = None)
  \/ (exists msg, e = ValueError msg).
Proof.
  unfold AddressBook.upcoming_of_record.
  destruct (Record.birthday record) as [b|].
  - cbv zeta. intros H. right.
    apply for_each_Raise_inv in H as (y & _ & H).
    now apply candidate_raises_ValueError in H.
  - intros H. inversion H. auto.
Qed.

Lemma get_upcoming_birthdays_raises today book e :
  AddressBook.get_upcoming_birthdays today book = Raise e ->
  (e = AttributeError
   /\ exists record,
        In record (AddressBook.values book) /\ Record.birthday record = None)
  \/ (exists msg, e = ValueError msg).
Proof.
  unfold AddressBook.get_upcoming_birthdays. intros H.
  apply for_each_Raise_inv in H as (record & Hin & H).
  apply upcoming_of_record_raises in H as [[-> Hn]|H]; eauto.
Qed.

Lemma birthdays_read_only today book : snd (birthdays today book) = book.
Proof.
  unfold birthdays, input_error.
  now destruct (AddressBook.get_upcoming_birthdays today book)
    as [[|u l]|[msg| | | |]].
Qed.

(** X8.  The [birthdays] handler never changes the book.  It displays
    a text, which is the message of the [ValueError] when a date cannot
    be built, unless the book holds a record without a birthday: the one
    exception that can leave it is the [AttributeError] of such a
    record.  On a book in which every record has a birthday it always
    displays a text. *)
Theorem birthdays_handler today book :
  snd (birthdays today book) = book
  /\ ((exists text, fst (birthdays today book) = Ok text)
      \/ (fst (birthdays today book) = Raise AttributeError
          /\ exists record,
               In record (AddressBook.values book)
               /\ Record.birthday record = None))
  /\ (Forall (fun record => Record.birthday record <> None)
        (AddressBook.values book) ->
      exists text, fst (birthdays today book) = Ok text).
Proof.
  unfold birthdays, input_error.
  destruct (AddressBook.get_upcoming_birthdays today book) as [[|u l]|e] eqn:E.
  - cbn. split; [reflexivity|]. split; eauto.
  - cbn. split; [reflexivity|]. split; eauto.
  - apply get_upcoming_birthdays_raises in E
      as [(-> & record & Hin & Hn) | (msg & ->)].
    + cbn. split; [reflexivity|]. split.
      * right. eauto.
      * intros Hall. rewrite Forall_forall in Hall.
        now destruct (Hall record Hin).
    + cbn. split; [reflexivity|]. split; eauto.
Qed.

(** ** What the handlers keep *)

Lemma Phone_init_raises s e : Phone.init s = Raise e -> e = Phone.InvalidFormat.
Proof.
  unfold Phone.init. destruct (negb _); [|discriminate]. congruence.
Qed.

Lemma Birthday_init_valid s b :
  Birthday.init s = Ok b -> Date.valid (Birthday.value b) = true.
Proof.
  unfold Birthday.init. destruct (negb _); [discriminate|].
  destruct (strptime (strip s)) as [d|[msg| | | |]] eqn:E; try discriminate.
  intros H. inversion H. cbn. now apply (strptime_valid _ _ E).
Qed.

Lemma add_phone_tidy phone : tidy (Record.add_phone phone).
Proof.
  intros r. unfold Record.add_phone, bind, lift, get, put, raise.
  destruct (Phone.init phone) as [p|e0] eqn:E; cbn.
  - destruct (contains p (Record.phones r)); cbn; split; auto.
    + intros e H. inversion H. cbn. auto.
    + discriminate.
  - split; [reflexivity|]. intros e H. inversion H; subst.
    rewrite (Phone_init_raises _ _ E). cbn. auto.
Qed.

Lemma edit_phone_tidy old new : tidy (Record.edit_phone old new).
Proof.
  intros r.
  unfold Record.edit_phone, Record.find_phone, bind, lift, get, put, raise, ret.
  destruct (find _ (Record.phones r)) as [p|]; cbn.
  - destruct (Phone.init new) as [q|e0] eqn:E; cbn.
    + destruct (list_index p (Record.phones r)) as [i|]; cbn.
      * destruct (list_setitem i q (Record.phones r)); cbn; split; auto;
          try discriminate.
        intros e H. inversion H. cbn. auto.
      * split; [reflexivity|]. intros e H. inversion H. cbn. auto.
    + split; [reflexivity|]. intros e H. inversion H; subst.
      rewrite (Phone_init_raises _ _ E). cbn. auto.
  - split; [reflexivity|]. intros e H. inversion H. cbn. auto.
Qed.

Lemma delete_phone_tidy phone : tidy (Record.delete_phone phone).
Proof.
  intros r.
  unfold Record.delete_phone, Record.find_phone, bind, get, put, raise, ret.
  destruct (find _ (Record.phones r)) as [p|]; cbn.
  - destruct (list_remove p (Record.phones r)); cbn; split; auto;
      try discriminate.
    intros e H. inversion H. cbn. auto.
  - split; [reflexivity|]. intros e H. inversion H. cbn. auto.
Qed.

Lemma add_birthday_tidy birthday : tidy (Record.add_birthday birthday).
Proof.
  intros r. unfold Record.add_birthday, bind, lift, get, put.
  destruct (Birthday.init birthday) as [b|e0] eqn:E; cbn.
  - split; [reflexivity|discriminate].
  - split; [reflexivity|]. intros e H. inversion H; subst.
    rewrite (Birthday_init_raises _ _ E). cbn. auto.
Qed.

Lemma add_phone_phones_all Q phone r :
  builds Q phone -> phones_all Q r ->
  phones_all Q (snd (Record.add_phone phone r)).
Proof.
  intros Hq [Hp Hb]. unfold Record.add_phone, bind, lift, get, put, raise.
  destruct (Phone.init phone) as [p|e0] eqn:E; cbn; [|now split].
  destruct (contains p (Record.phones r)); cbn; [now split|].
  split; [|exact Hb]. cbn. apply Forall_app. split; [assumption|].
  constructor; [|constructor]. now apply Hq.
Qed.

Lemma edit_phone_phones_all Q old new r :
  builds Q new -> phones_all Q r ->
  phones_all Q (snd (Record.edit_phone old new r)).
Proof.
  intros Hq [Hp Hb].
  unfold Record.edit_phone, Record.find_phone, bind, lift, get, put, raise, ret.
  destruct (find _ (Record.phones r)) as [p|]; cbn; [|now split].
  destruct (Phone.init new) as [q|e0] eqn:E; cbn; [|now split].
  destruct (list_index p (Record.phones r)) as [i|]; cbn; [|now split].
  destruct (list_setitem i q (Record.phones r)) as [l|] eqn:El; cbn;
    [|now split].
  split; [|exact Hb]. cbn.
  apply (list_setitem_Forall _ i q (Record.phones r)); auto.
Qed.

Lemma delete_phone_phones_all Q phone r :
  phones_all Q r -> phones_all Q (snd (Record.delete_phone phone r)).
Proof.
  intros [Hp Hb].
  unfold Record.delete_phone, Record.find_phone, bind, get, put, raise, ret.
  destruct (find _ (Record.phones r)) as [p|]; cbn; [|now split].
  destruct (list_remove p (Record.phones r)) as [l|] eqn:El; cbn;
    [|now split].
  split; [|exact Hb]. cbn. rewrite Forall_forall in *. intros y Hy.
  apply Hp. now apply (list_remove_In p (Record.phones r) l).
Qed.

Lemma add_birthday_phones_all Q birthday r :
  phones_all Q r -> phones_all Q (snd (Record.add_birthday birthday r)).
Proof.
  intros [Hp Hb]. unfold Record.add_birthday, bind, lift, get, put.
  destruct (Birthday.init birthday) as [b|e0] eqn:E; cbn; [|now split].
  split; [exact Hp|]. cbn. intros b' Hb'. inversion Hb'; subst.
  now apply (Birthday_init_valid birthday).
Qed.

Lemma change_contact_well_behaved Q args :
  Forall (builds Q) args ->
  well_behaved Q (change_contact args) "Contact updated".
Proof.
  intros Hargs book.
  destruct args as [|name [|phone_old [|phone_new [|x args]]]];
    try quiet_case.
  assert (Hnew : builds Q phone_new)
    by (inversion Hargs as [|? ? _ H1]; inversion H1 as [|? ? _ H2];
        now inversion H2).
  cbv beta iota delta [change_contact input_error bind unpack3 ret raise
                         AddressBook.find get on_record NoContact].
  destruct (AddressBook.getitem name book) as [record|] eqn:G;
    [|quiet_case].
  pose proof (edit_phone_phones_all Q phone_old phone_new record Hnew) as Hk.
  run_method (Record.edit_phone phone_old phone_new) record
    (edit_phone_tidy phone_old phone_new);
    cbn [fst snd] in *; rewrite ?(setitem_same _ _ _ G);
    try (split; [eauto|split; [apply step_same|reflexivity]]).
  split; [eauto|split].
  - now apply (step_update Q book name record).
  - intros H. now contradiction H.
Qed.

Lemma delete_contact_well_behaved Q args :
  well_behaved Q (delete_contact args) "Contact deleted".
Proof.
  intros book. destruct args as [|name args]; [quiet_case|].
  cbv beta iota delta [delete_contact input_error bind first_arg ret raise
                         AddressBook.find AddressBook.delete get put NoContact].
  destruct (AddressBook.getitem name book) as [record|] eqn:G;
    [|quiet_case].
  cbv beta iota. rewrite G. cbn [fst snd]. split; [eauto|split].
  - apply step_delete.
  - intros H. now contradiction H.
Qed.

Lemma delete_phone_well_behaved Q args :
  well_behaved Q (delete_phone args) "Phone deleted".
Proof.
  intros book.
  destruct args as [|name [|phone [|x args]]]; try quiet_case.
  cbv beta iota delta [delete_phone input_error bind unpack2 ret raise
                         AddressBook.find get on_record NoContact].
  destruct (AddressBook.getitem name book) as [record|] eqn:G;
    [|quiet_case].
  destruct (negb _); [quiet_case|].
  pose proof (delete_phone_phones_all Q phone record) as Hk.
  run_method (Record.delete_phone phone) record (delete_phone_tidy phone);
    cbn [fst snd] in *; rewrite ?(setitem_same _ _ _ G);
    try (split; [eauto|split; [apply step_same|reflexivity]]).
  split; [eauto|split].
  - now apply (step_update Q book name record).
  - intros H. now contradiction H.
Qed.

Lemma add_birthday_well_behaved Q args :
  well_behaved Q (add_birthday args) "Birthday added".
Proof.
  intros book.
  destruct args as [|name [|birthday [|x args]]]; try quiet_case.
  cbv beta iota delta [add_birthday input_error bind unpack2 ret raise
                         AddressBook.find get on_record NoContact AlreadySet].
  destruct (AddressBook.getitem name book) as [record|] eqn:G;
    [|quiet_case].
  destruct (Record.birthday record) as [b|]; [quiet_case|].
  pose proof (add_birthday_phones_all Q birthday record) as Hk.
  run_method (Record.add_birthday birthday) record
    (add_birthday_tidy birthday);
    cbn [fst snd] in *; rewrite ?(setitem_same _ _ _ G);
    try (split; [eauto|split; [apply step_same|reflexivity]]).
  split; [eauto|split].
  - now apply (step_update Q book name record).
  - intros H. now contradiction H.
Qed.

Lemma add_contact_steps Q args book :
  Forall (builds Q) args ->
  (exists text, fst (add_contact args book) = Ok text)
  /\ book_step Q book (snd (add_contact args book)).
Proof.
  intros Hargs.
  destruct args as [|name [|phone [|x args]]];
    try (cbn; split; [eauto|apply step_same]).
  assert (Hphone : builds Q phone)
    by (inversion Hargs as [|? ? _ H1]; now inversion H1).
  destruct (AddressBook.getitem name book) as [record|] eqn:G.
  - rewrite (add_contact_existing _ _ _ _ G).
    pose proof (add_phone_phones_all Q phone record Hphone) as Hk.
    run_method (Record.add_phone phone) record (add_phone_tidy phone);
      cbn [fst snd] in *; rewrite ?(setitem_same _ _ _ G);
      try (split; [eauto|apply step_same]).
    split; [eauto|]. now apply (step_update Q book name record).
  - rewrite (add_contact_new _ _ _ G).
    assert (Hi : phones_all Q (Record.init name))
      by (split; [constructor|discriminate]).
    pose proof (add_phone_phones_all Q phone (Record.init name) Hphone Hi)
      as Hk.
    run_method (Record.add_phone phone) (Record.init name)
      (add_phone_tidy phone);
      cbn [fst snd] in *;
      (split; [eauto|]); apply (step_insert Q book name); auto.
Qed.

(** The handlers that only read. *)
Lemma show_handlers_read_only args book :
  (snd (show_phone args book) = book
   /\ exists text, fst (show_phone args book) = Ok text)
  /\ (snd (show_all book) = book
      /\ exists text, fst (show_all book) = Ok text)
  /\ (snd (show_birthday args book) = book
      /\ exists text, fst (show_birthday args book) = Ok text).
Proof.
  split; [|split].
  - destruct args as [|name args]; [cbn; eauto|].
    cbv beta iota delta [show_phone input_error bind first_arg ret raise
                           AddressBook.find get NoContact].
    destruct (AddressBook.getitem name book); cbn; eauto.
  - cbv beta iota delta [show_all input_error bind ret get].
    destruct (AddressBook.values book); cbn; eauto.
  - destruct args as [|name args]; [cbn; eauto|].
    cbv beta iota delta [show_birthday input_error bind first_arg ret raise
                           AddressBook.find get NoContact].
    destruct (AddressBook.getitem name book) as [record|]; [|cbn; eauto].
    destruct (Record.birthday record); cbn; eauto.
Qed.

Lemma builds_well_formed s : builds well_formed s.
Proof. intros p. apply Phone_init_well_formed. Qed.

(** X9.  Every handler but [birthdays] returns a text for every
    argument list and every book: no exception leaves it.  [change],
    [delete], [delete-phone] and [add-birthday] leave the book as it was
    whenever the text is not their success text, and [phone], [all] and
    [show-birthday] never change it. *)
Theorem handlers_return_text args :
  (forall book,
      (exists text, fst (change_contact args book) = Ok text)
      /\ (fst (change_contact args book) <> Ok "Contact updated" ->
          snd (change_contact args book) = book))
  /\ (forall book,
         (exists text, fst (delete_contact args book) = Ok text)
         /\ (fst (delete_contact args book) <> Ok "Contact deleted" ->
             snd (delete_contact args book) = book))
  /\ (forall book,
         (exists text, fst (delete_phone args book) = Ok text)
         /\ (fst (delete_phone args book) <> Ok "Phone deleted" ->
             snd (delete_phone args book) = book))
  /\ (forall book,
         (exists text, fst (add_birthday args book) = Ok text)
         /\ (fst (add_birthday args book) <> Ok "Birthday added" ->
             snd (add_birthday args book) = book))
  /\ (forall book, exists text, fst (add_contact args book) = Ok text)
  /\ (forall book,
         (snd (show_phone args book) = book
          /\ exists text, fst (show_phone args book) = Ok text)
         /\ (snd (show_all book) = book
             /\ exists text, fst (show_all book) = Ok text)
         /\ (snd (show_birthday args book) = book
             /\ exists text, fst (show_birthday args book) = Ok text)).
Proof.
  assert (Hargs : Forall (builds well_formed) args)
    by (apply Forall_forall; intros s _; apply builds_well_formed).
  split; [intros book;
          destruct (change_contact_well_behaved _ args Hargs book)
            as (H1 & _ & H2); auto|].
  split; [intros book;
          destruct (delete_contact_well_behaved well_formed args book)
            as (H1 & _ & H2); auto|].
  split; [intros book;
          destruct (delete_phone_well_behaved well_formed args book)
            as (H1 & _ & H2); auto|].
  split; [intros book;
          destruct (add_birthday_well_behaved well_formed args book)
            as (H1 & _ & H2); auto|].
  split; [intros book; now apply (add_contact_steps well_formed)|].
  intros book. apply show_handlers_read_only.
Qed.

Lemma handler_steps Q today command args handler book :
  Forall (builds Q) args ->
  dispatch today command args = Some handler ->
  book_step Q book (snd (handler book)).
Proof.
  intros Hargs. unfold dispatch.
  repeat match goal with
         | |- context [if ?c then _ else _] => destruct c
         end;
    intros H; inversion H; subst; try apply step_same.
  - now apply add_contact_steps.
  - now apply change_contact_well_behaved.
  - apply delete_contact_well_behaved.
  - rewrite (proj1 (proj1 (show_handlers_read_only args book))).
    apply step_same.
  - apply delete_phone_well_behaved.
  - rewrite (proj1 (proj1 (proj2 (show_handlers_read_only args book)))).
    apply step_same.
  - apply add_birthday_well_behaved.
  - rewrite (proj1 (proj2 (proj2 (show_handlers_read_only args book)))).
    apply step_same.
  - rewrite birthdays_read_only. apply step_same.
Qed.

(** ** The invariants of the book *)

Lemma getitem_None key data :
  AddressBook.getitem key data = None <-> ~ In key (map fst data).
Proof.
  induction data as [|[k r] data IH]; cbn; [tauto|].
  destruct (String.eqb_spec k key) as [->|ne].
  - split; [discriminate|]. intros H. exfalso. auto.
  - rewrite IH. tauto.
Qed.

Lemma getitem_In key data r :
  AddressBook.getitem key data = Some r -> In (key, r) data.
Proof.
  induction data as [|[k r0] data IH]; cbn; [discriminate|].
  destruct (String.eqb_spec k key) as [->|ne].
  - intros H. inversion H. now left.
  - intros H. right. auto.
Qed.

Lemma setitem_keys key v data r :
  AddressBook.getitem key data = Some r ->
  map fst (AddressBook.setitem key v data) = map fst data.
Proof.
  induction data as [|[k r0] data IH]; cbn; [discriminate|].
  destruct (String.eqb_spec k key) as [->|ne]; cbn; [reflexivity|].
  intros H. now rewrite IH.
Qed.

Lemma setitem_Forall (P : string * Record.t -> Prop) key v data :
  Forall P data -> P (key, v) -> Forall P (AddressBook.setitem key v data).
Proof.
  intros Hd Hv. induction Hd as [|[k r0] data Hk Hd IH]; cbn.
  - now constructor.
  - destruct (String.eqb_spec k key) as [->|ne]; constructor; auto.
Qed.

Lemma delitem_In key data kr :
  In kr (AddressBook.delitem key data) -> In kr data.
Proof.
  induction data as [|[k r0] data IH]; cbn; [tauto|].
  destruct (String.eqb k key); cbn; intuition.
Qed.

Lemma delitem_keys_NoDup key data :
  NoDup (map fst data) -> NoDup (map fst (AddressBook.delitem key data)).
Proof.
  induction data as [|[k r0] data IH]; cbn; [auto|].
  intros H. inversion H as [|k' ks Hk Hks]; subst.
  destruct (String.eqb k key); cbn; [assumption|].
  constructor; [|auto].
  intros Hin. apply Hk. apply in_map_iff in Hin as (kr & <- & Hin).
  apply in_map. now apply (delitem_In key).
Qed.

Lemma book_step_keeps_invariants Q book book' :
  book_inv Q book -> book_step Q book book' -> book_inv Q book'.
Proof.
  intros [Hk Hr] Hs. destruct Hs as [|key record record' G Hn Ho
                                     |name record' G Hn Ho|name].
  - now split.
  - pose proof (getitem_In _ _ _ G) as Hin.
    rewrite Forall_forall in Hr. destruct (Hr _ Hin) as [Hkey Hok].
    cbn in Hkey, Hok. split.
    + now rewrite (setitem_keys _ _ _ _ G).
    + apply setitem_Forall; [now apply Forall_forall|].
      cbn. rewrite Hn. auto.
  - split.
    + rewrite (setitem_absent _ _ _ G), map_app. cbn.
      apply NoDup_app; [assumption|repeat constructor; intros []|].
      intros k Hin [<-|[]]. now apply getitem_None in G.
    + apply setitem_Forall; [assumption|]. cbn. now rewrite Hn.
  - split; [now apply delitem_keys_NoDup|].
    rewrite Forall_forall in *. intros kr Hin.
    apply Hr. now apply (delitem_In name).
Qed.

(** X10.  Whatever the arguments, a command keeps the invariants of
    the book: no key twice, every key the name of its record, every
    phone matching the pattern of [Phone], every birthday a date of the
    calendar. *)
Theorem dispatch_keeps_invariants today command args handler book :
  dispatch today command args = Some handler ->
  book_inv well_formed book ->
  book_inv well_formed (snd (handler book)).
Proof.
  intros Hd Hok.
  apply (book_step_keeps_invariants well_formed book); [assumption|].
  apply (handler_steps well_formed today command args); [|assumption].
  apply Forall_forall. intros s _. apply builds_well_formed.
Qed.

Lemma dispatch_keeps_invariants_witness :
  book_inv well_formed
    (snd (add_contact ["Alice"; "1234567890"] AddressBook.empty)).
Proof.
  apply (dispatch_keeps_invariants (Date.mk 2024 6 10) "add"
           ["Alice"; "1234567890"] (add_contact ["Alice"; "1234567890"])
           AddressBook.empty).
  - reflexivity.
  - split; constructor.
Defined.

(** ** Reading a command *)

Lemma split_ws_cons c r :
  split_ws (String c r)
  = if is_space c then split_ws r
    else if starts_space r then String c "" :: split_ws r
         else match split_ws r with
              | t :: ts => String c t :: ts
              | [] => [String c ""]
              end.
Proof.
  cbn [split_ws]. destruct (is_space c); [reflexivity|].
  destruct r as [|c' r']; reflexivity.
Qed.

Lemma split_ws_nonspace s : starts_space s = false -> split_ws s <> [].
Proof.
  induction s as [|c r IH]; [discriminate|].
  cbn [starts_space]. intros Hc. rewrite split_ws_cons, Hc.
  destruct (starts_space r); [discriminate|].
  destruct (split_ws r); discriminate.
Qed.

Lemma split_ws_tokens s : Forall token (split_ws s).
Proof.
  induction s as [|c r IH]; [constructor|].
  rewrite split_ws_cons. destruct (is_space c) eqn:Hc; [assumption|].
  assert (T1 : token (String c "")).
  { split; [discriminate|]. cbn. now rewrite Hc. }
  destruct (starts_space r); [now constructor|].
  destruct (split_ws r) as [|t ts]; [now constructor|].
  inversion IH as [|? ? [Ht Hs] Hts]; subst. constructor; [|assumption].
  split; [discriminate|]. cbn. now rewrite Hc, Hs.
Qed.

Lemma split_ws_blank s : split_ws s = [] <-> blank s = true.
Proof.
  induction s as [|c r IH]; [cbn; tauto|].
  rewrite split_ws_cons. cbn [blank].
  destruct (is_space c); cbn [andb]; [assumption|].
  split; [|discriminate].
  destruct (starts_space r); [discriminate|].
  destruct (split_ws r); discriminate.
Qed.

Lemma split_ws_lstrip s : split_ws (lstrip s) = split_ws s.
Proof.
  induction s as [|c r IH]; [reflexivity|].
  cbn [lstrip]. destruct (is_space c) eqn:Hc; [|reflexivity].
  now rewrite IH, (split_ws_cons c r), Hc.
Qed.

Lemma starts_space_rstrip s : starts_space (rstrip s) = starts_space s.
Proof.
  destruct s as [|c r]; [reflexivity|].
  cbn [rstrip starts_space]. destruct (rstrip r); [|reflexivity].
  destruct (is_space c) eqn:Hc; cbn; now rewrite ?Hc.
Qed.

Lemma split_ws_rstrip s : split_ws (rstrip s) = split_ws s.
Proof.
  induction s as [|c r IH]; [reflexivity|].
  rewrite (split_ws_cons c r), <- IH, <- (starts_space_rstrip r).
  cbn [rstrip]. destruct (rstrip r) as [|c1 r1] eqn:R.
  - destruct (is_space c) eqn:Hc; cbn; now rewrite ?Hc.
  - now rewrite split_ws_cons.
Qed.

Lemma split_ws_strip s : split_ws (strip s) = split_ws s.
Proof. unfold strip. now rewrite split_ws_rstrip, split_ws_lstrip. Qed.

Lemma blank_strip s : blank s = true <-> strip s = "".
Proof.
  split.
  - intros H. apply split_ws_blank in H. rewrite <- split_ws_strip in H.
    unfold strip in *. destruct (rstrip (lstrip s)) as [|c r] eqn:E;
      [reflexivity|].
    exfalso. revert H. apply split_ws_nonspace. cbn.
    assert (L : starts_space (lstrip s) = false \/ lstrip s = "").
    { clear. induction s as [|c r IH]; [now right|].
      cbn [lstrip]. destruct (is_space c) eqn:Hc; [assumption|].
      left. exact Hc. }
    destruct L as [L|L].
    + rewrite <- starts_space_rstrip, E in L. exact L.
    + rewrite L in E. discriminate.
  - intros H. apply split_ws_blank. rewrite <- split_ws_strip, H. reflexivity.
Qed.

Lemma parse_input_raises line e :
  parse_input line = Raise e -> e = IndexError /\ strip line = "".
Proof.
  unfold parse_input. rewrite split_ws_strip, <- blank_strip.
  pose proof (split_ws_blank line) as B.
  destruct (split_ws line) as [|word args]; [|discriminate].
  intros H. inversion H. split; [reflexivity|now apply B].
Qed.

(** X11.  [parse_input] raises on a line that is empty or all white
    space, and on no other: its one exception is [IndexError].  On any
    other line it returns the first word in lower case and the other
    words, none of them empty or holding white space; the [strip] before
    the [split] changes nothing. *)
Theorem parse_input_words user_input :
  (parse_input user_input = Raise IndexError <-> strip user_input = "")
  /\ (forall e, parse_input user_input = Raise e -> e = IndexError)
  /\ (forall command args,
         parse_input user_input = Ok (command, args) ->
         (exists word,
             token word /\ command = lower word
             /\ split_ws user_input = word :: args)
         /\ Forall token args).
Proof.
  unfold parse_input. rewrite split_ws_strip, <- blank_strip.
  pose proof (split_ws_tokens user_input) as T.
  pose proof (split_ws_blank user_input) as B.
  destruct (split_ws user_input) as [|word args].
  - split; [|split]; [tauto| |discriminate].
    intros e H. now inversion H.
  - inversion T as [|? ? Tw Ta]; subst.
    split; [|split]; try discriminate.
    + split; [discriminate|]. intros H. apply B in H. discriminate.
    + intros command args' H. inversion H; subst. eauto.
Qed.

Lemma split_ws_blank_app l s : blank l = true -> split_ws (l ++ s) = split_ws s.
Proof.
  induction l as [|c l IH]; [reflexivity|].
  cbn [blank]. intros H. apply andb_true_iff in H as [Hc Hl].
  cbn [append]. now rewrite split_ws_cons, Hc, IH.
Qed.

Lemma split_ws_token_app t rest :
  token t -> starts_space rest = true ->
  split_ws (t ++ rest) = t :: split_ws rest.
Proof.
  intros [Hne Hs] Hrest. induction t as [|c t IH]; [congruence|].
  cbn [no_space] in Hs. apply andb_true_iff in Hs as [Hc Hs].
  apply negb_true_iff in Hc.
  cbn [append]. rewrite split_ws_cons, Hc.
  destruct t as [|c2 t2].
  - cbn [append]. now rewrite Hrest.
  - rewrite IH; [|discriminate|assumption].
    cbn [no_space] in Hs. apply andb_true_iff in Hs as [Hc2 _].
    apply negb_true_iff in Hc2. cbn [append starts_space]. now rewrite Hc2.
Qed.

Lemma split_ws_join ts r :
  Forall token ts -> blank r = true ->
  split_ws (join " " ts ++ r) = ts.
Proof.
  intros Hts Hr. induction Hts as [|t ts Ht Hts IH].
  - cbn. now apply split_ws_blank.
  - destruct ts as [|t' ts'].
    + cbn [join]. rewrite split_ws_token_app; [|assumption|].
      * f_equal. now apply split_ws_blank.
      * destruct r as [|c r]; [reflexivity|].
        cbn in Hr |- *. now apply andb_true_iff in Hr as [Hc _].
    + change (join " " (t :: t' :: ts'))
        with (t ++ String " " (join " " (t' :: ts'))).
      rewrite append_assoc. cbn [append].
      rewrite split_ws_token_app; [|assumption|reflexivity].
      rewrite split_ws_cons. cbn [is_space]. f_equal. exact IH.
Qed.

Lemma is_space_lower_char c : is_space (lower_char c) = is_space c.
Proof. destruct c as [[] [] [] [] [] [] [] []]; reflexivity. Qed.

Lemma lower_char_idem c : lower_char (lower_char c) = lower_char c.
Proof. destruct c as [[] [] [] [] [] [] [] []]; reflexivity. Qed.

Lemma lower_idem s : lower (lower s) = lower s.
Proof.
  induction s as [|c r IH]; [reflexivity|].
  cbn [lower]. now rewrite lower_char_idem, IH.
Qed.

Lemma token_lower t : token t -> token (lower t).
Proof.
  intros [Hne Hs]. split.
  - destruct t; [congruence|discriminate].
  - clear Hne. induction t as [|c t IH]; [reflexivity|].
    cbn [no_space lower] in *. apply andb_true_iff in Hs as [Hc Hs].
    now rewrite is_space_lower_char, Hc, IH.
Qed.

(** X12.  Words joined by single spaces, with any white space before
    and after, are read back as they are, the command in lower case: a
    command is recognised whatever the case it is typed in. *)
Theorem parse_input_join word args before after :
  token word -> Forall token args ->
  blank before = true -> blank after = true ->
  parse_input (before ++ join " " (word :: args) ++ after)
  = Ok (lower word, args)
  /\ parse_input (before ++ join " " (lower word :: args) ++ after)
     = Ok (lower word, args).
Proof.
  intros Hw Ha Hb Hf. unfold parse_input.
  rewrite !split_ws_strip.
  rewrite (split_ws_blank_app before (join " " (word :: args) ++ after) Hb).
  rewrite (split_ws_blank_app before
             (join " " (lower word :: args) ++ after) Hb).
  rewrite (split_ws_join (word :: args) after) by (try constructor; assumption).
  rewrite (split_ws_join (lower word :: args) after)
    by (try constructor; try apply token_lower; assumption).
  now rewrite lower_idem.
Qed.

Lemma parse_input_join_witness :
  parse_input ("  " ++ join " " ["ADD"; "Alice"; "1234567890"] ++ " ")
  = Ok ("add", ["Alice"; "1234567890"])
  /\ parse_input ("  " ++ join " " ["add"; "Alice"; "1234567890"] ++ " ")
     = Ok ("add", ["Alice"; "1234567890"]).
Proof.
  apply (parse_input_join "ADD" ["Alice"; "1234567890"] "  " " ").
  - split; [discriminate|reflexivity].
  - repeat constructor; discriminate.
  - reflexivity.
  - reflexivity.
Defined.

(** ** Phones typed on the command line *)

Lemma no_space_append a b : no_space (a ++ b) = no_space a && no_space b.
Proof.
  induction a as [|c a IH]; [reflexivity|].
  cbn [append no_space]. now rewrite IH, andb_assoc.
Qed.

Lemma Phone_init_no_space s :
  no_space s = true ->
  Phone.init s = if ten_digits s then Ok (Phone.mk s)
                 else Raise Phone.InvalidFormat.
Proof.
  intros Hs. destruct (ten_digits s) eqn:T.
  - now apply Phone_init_ok.
  - apply Phone_init_rejects; [assumption|].
    intros d _ ->. rewrite no_space_append in Hs.
    apply andb_true_iff in Hs as [_ Hs]. discriminate.
Qed.

Lemma builds_exact s : no_space s = true -> builds exact_phone s.
Proof.
  intros Hs p. rewrite (Phone_init_no_space s Hs).
  destruct (ten_digits s) eqn:T; [|discriminate].
  intros H. inversion H. exact T.
Qed.

Lemma tokens_build_exact args :
  Forall token args -> Forall (builds exact_phone) args.
Proof.
  intros H. eapply Forall_impl; [|exact H].
  intros s [_ Hs]. now apply builds_exact.
Qed.

Lemma parse_input_tokens line command args :
  parse_input line = Ok (command, args) -> Forall token args.
Proof.
  unfold parse_input. rewrite split_ws_strip.
  pose proof (split_ws_tokens line) as T.
  destruct (split_ws line) as [|w a]; [discriminate|].
  intros H. inversion H; subst. now inversion T.
Qed.

Lemma main_loop_book_inv inputs book :
  book_inv exact_phone book ->
  book_inv exact_phone (snd (main_loop inputs book)).
Proof.
  revert book. induction inputs as [|[today line] inputs IH]; intros book Hok.
  - exact Hok.
  - cbn [main_loop].
    destruct (parse_input line) as [[command args]|e] eqn:P; [|exact Hok].
    destruct (dispatch today command args) as [handler|] eqn:D; [|exact Hok].
    assert (Hok' : book_inv exact_phone (snd (handler book))).
    { apply (book_step_keeps_invariants exact_phone book); [assumption|].
      apply (handler_steps exact_phone today command args); [|assumption].
      apply tokens_build_exact. now apply (parse_input_tokens line command). }
    destruct (handler book) as [[message|e] book']; [|exact Hok'].
    specialize (IH book' Hok').
    now destruct (main_loop inputs book') as [[printed how] book''].
Qed.

(** X13.  Whatever is typed, the book of a run of [main] keeps the
    invariants of the data model, and in their strong form: no key
    twice, every key the name of its record, every phone exactly ten
    digits, every birthday a date of the calendar.  A phone with a line
    feed after its ten digits, which [Phone] accepts, cannot be typed:
    the words of a command hold no white space. *)
Theorem main_book_invariants inputs :
  book_inv exact_phone (snd (main inputs))
  /\ forall word, token word ->
       Phone.init word = if ten_digits word then Ok (Phone.mk word)
                         else Raise Phone.InvalidFormat.
Proof.
  split.
  - unfold main.
    pose proof (main_loop_book_inv inputs AddressBook.empty) as H.
    destruct (main_loop inputs AddressBook.empty) as [[printed how] book].
    apply H. split; constructor.
  - intros word [_ Hs]. now apply Phone_init_no_space.
Qed.

(** ** How a run ends *)

Lemma handler_raises today command args handler book e :
  dispatch today command args = Some handler ->
  fst (handler book) = Raise e ->
  command = "birthdays" /\ e = AttributeError
  /\ snd (handler book) = book
  /\ exists record,
       In record (AddressBook.values book) /\ Record.birthday record = None.
Proof.
  assert (Hargs : Forall (builds well_formed) args)
    by (apply Forall_forall; intros s _; apply builds_well_formed).
  unfold dispatch.
  repeat match goal with
         | |- context [if ?c then _ else _] => destruct c eqn:?
         end;
    intros H; inversion H; subst; clear H; try discriminate.
  - destruct (add_contact_steps well_formed args book Hargs) as [[t ->] _].
    discriminate.
  - destruct (change_contact_well_behaved well_formed args Hargs book)
      as [[t ->] _]. discriminate.
  - destruct (delete_contact_well_behaved well_formed args book)
      as [[t ->] _]. discriminate.
  - destruct (show_handlers_read_only args book) as [[_ [t ->]] _].
    discriminate.
  - destruct (delete_phone_well_behaved well_formed args book)
      as [[t ->] _]. discriminate.
  - destruct (show_handlers_read_only args book) as [_ [[_ [t ->]] _]].
    discriminate.
  - destruct (add_birthday_well_behaved well_formed args book)
      as [[t ->] _]. discriminate.
  - destruct (show_handlers_read_only args book) as [_ [_ [_ [t ->]]]].
    discriminate.
  - intros E. rewrite birthdays_read_only.
    match goal with H : String.eqb command _ = true |- _ =>
      apply String.eqb_eq in H; subst command end.
    split; [reflexivity|].
    unfold birthdays, input_error in E.
    destruct (AddressBook.get_upcoming_birthdays today book)
      as [[|u l]|e'] eqn:G; try discriminate.
    apply get_upcoming_birthdays_raises in G
      as [(-> & record & Hin & Hn) | (msg & ->)]; [|discriminate].
    cbn in E. inversion E; subst. eauto.
Qed.

(** X14.  A run of the loop is ended by an exception in two cases
    only: a line that is empty or all white space, on which
    [parse_input] raises [IndexError], and the command [birthdays] on a
    book that holds a record without a birthday, where the handler lets
    an [AttributeError] through. *)
Theorem main_loop_uncaught inputs book printed e book' :
  main_loop inputs book = (printed, Uncaught e, book') ->
  (e = IndexError
   /\ exists today line, In (today, line) inputs /\ strip line = "")
  \/ (e = AttributeError
      /\ (exists today line args,
             In (today, line) inputs
             /\ parse_input line = Ok ("birthdays", args))
      /\ exists record,
           In record (AddressBook.values book')
           /\ Record.birthday record = None).
Proof.
  revert book printed.
  induction inputs as [|[today line] inputs IH]; intros book printed.
  - discriminate.
  - cbn [main_loop].
    destruct (parse_input line) as [[command args]|e0] eqn:P.
    + destruct (dispatch today command args) as [handler|] eqn:D;
        [|discriminate].
      pose proof (handler_raises today command args handler book) as R.
      destruct (handler book) as [[message|e0] book0].
      * destruct (main_loop inputs book0) as [[printed0 how0] book1] eqn:L.
        intros H. inversion H; subst.
        destruct (IH _ _ L) as [(-> & t & l & Hin & Hl)
                               |(-> & (t & l & a & Hin & Hl) & Hr)].
        -- left. split; [reflexivity|]. exists t, l. split; [now right|auto].
        -- right. split; [reflexivity|]. split; [|assumption].
           exists t, l, a. split; [now right|auto].
      * intros H. inversion H; subst.
        destruct (R e D eq_refl) as (-> & -> & Hb & Hr). cbn in Hb. subst.
        right. split; [reflexivity|]. split; [|assumption].
        exists today, line, args. split; [now left|assumption].
    + intros H. inversion H; subst.
      destruct (parse_input_raises _ _ P) as [-> Hblank].
      left. split; [reflexivity|].
      exists today, line. split; [now left|assumption].
Qed.

Lemma main_loop_uncaught_witness :
  let inputs := [(Date.mk 2024 6 10, "add Alice 1234567890");
                 (Date.mk 2024 6 10, "birthdays")] in
  let book' := [("Alice",
                 Record.mk (Name.mk "Alice") [Phone.mk "1234567890"] None)] in
  main_loop inputs AddressBook.empty
  = (["Contact added."], Uncaught AttributeError, book')
  /\ ((AttributeError = IndexError
       /\ exists today line, In (today, line) inputs /\ strip line = "")
      \/ (AttributeError = AttributeError
          /\ (exists today line args,
                 In (today, line) inputs
                 /\ parse_input line = Ok ("birthdays", args))
          /\ exists record,
               In record (AddressBook.values book')
               /\ Record.birthday record = None)).
Proof.
  split; [reflexivity|].
  apply (main_loop_uncaught
           [(Date.mk 2024 6 10, "add Alice 1234567890");
            (Date.mk 2024 6 10, "birthdays")]
           AddressBook.empty ["Contact added."] AttributeError
           [("Alice",
             Record.mk (Name.mk "Alice") [Phone.mk "1234567890"] None)]).
  reflexivity.
Defined.

(** X15.  The loop reads its lines one after the other: a run on
    [inputs ++ more] is the run on [inputs], followed, if that one came
    to the end of its lines, by the run on [more] from the book it left;
    after [close], [exit] or an exception no further line is read. *)
Theorem main_loop_app inputs more book :
  main_loop (inputs ++ more) book
  = match main_loop inputs book with
    | (printed, EndOfInput, book') =>
        let '(printed', how, book'') := main_loop more book' in
        ((printed ++ printed')%list, how, book'')
    | stopped => stopped
    end.
Proof.
  revert book. induction inputs as [|[today line] inputs IH]; intros book.
  - cbn. now destruct (main_loop more book) as [[p h] b].
  - cbn [app main_loop].
    destruct (parse_input line) as [[command args]|e]; [|reflexivity].
    destruct (dispatch today command args) as [handler|]; [|reflexivity].
    destruct (handler book) as [[message|e] book0]; [|reflexivity].
    rewrite IH.
    destruct (main_loop inputs book0) as [[printed0 how0] book1].
    destruct how0; try reflexivity.
    now destruct (main_loop more book1) as [[p h] b].
Qed.

(** X16.  Every line read gets one printed answer: a run that comes
    to the end of its lines has printed as many texts as it has read
    lines; a run ended by [close] or [exit] has printed [Good bye!]
    last; a run ended by an exception has printed fewer texts than there
    are lines. *)
Theorem main_loop_printed inputs book :
  let '(printed, how, _) := main_loop inputs book in
  match how with
  | EndOfInput => length printed = length inputs
  | Exited =>
      (length printed <= length inputs)%nat
      /\ exists answers, printed = (answers ++ ["Good bye!"])%list
  | Uncaught _ => (length printed < length inputs)%nat
  end.
Proof.
  revert book. induction inputs as [|[today line] inputs IH]; intros book.
  - reflexivity.
  - cbn [main_loop].
    destruct (parse_input line) as [[command args]|e]; [|cbn; lia].
    destruct (dispatch today command args) as [handler|].
    + destruct (handler book) as [[message|e] book0]; [|cbn; lia].
      specialize (IH book0).
      destruct (main_loop inputs book0) as [[printed0 how0] book1].
      destruct how0; cbn [length].
      * destruct IH as [Hl [answers ->]]. split; [lia|].
        now exists (message :: answers).
      * lia.
      * lia.
    + cbn. split; [lia|]. now exists [].
Qed.

(** ** The book as a dictionary *)

Lemma getitem_setitem_other key key' v data :
  key <> key' ->
  AddressBook.getitem key' (AddressBook.setitem key v data)
  = AddressBook.getitem key' data.
Proof.
  intros Hne. induction data as [|[k r] data IH]; cbn.
  - destruct (String.eqb_spec key key'); [contradiction|reflexivity].
  - destruct (String.eqb_spec k key) as [->|ne]; cbn.
    + destruct (String.eqb_spec key key'); [contradiction|reflexivity].
    + now rewrite IH.
Qed.

Lemma getitem_delitem key data :
  NoDup (map fst data) ->
  AddressBook.getitem key (AddressBook.delitem key data) = None.
Proof.
  induction data as [|[k r] data IH]; cbn; [reflexivity|].
  intros H. inversion H as [|k' ks Hk Hks]; subst.
  destruct (String.eqb_spec k key) as [->|ne].
  - now apply getitem_None.
  - cbn. destruct (String.eqb_spec k key); [contradiction|auto].
Qed.

Lemma getitem_delitem_other key key' data :
  key <> key' ->
  AddressBook.getitem key' (AddressBook.delitem key data)
  = AddressBook.getitem key' data.
Proof.
  intros Hne. induction data as [|[k r] data IH]; cbn; [reflexivity|].
  destruct (String.eqb_spec k key) as [->|ne]; cbn.
  - destruct (String.eqb_spec key key'); [contradiction|reflexivity].
  - now rewrite IH.
Qed.

Lemma delitem_setitem_absent key v data :
  AddressBook.getitem key data = None ->
  AddressBook.delitem key (AddressBook.setitem key v data) = data.
Proof.
  induction data as [|[k r] data IH]; cbn.
  - now rewrite String.eqb_refl.
  - destruct (String.eqb k key) eqn:E; [discriminate|].
    intros H. cbn. now rewrite E, IH.
Qed.

(** X17.  The book behaves as a dictionary keyed by name.  After
    [add_record], [find] returns the record under its own name and what
    it returned before under any other; after [delete] of a name that is
    there, [find] returns [None] under that name and what it returned
    before under any other; [delete] of a name that is not there raises
    and changes nothing.  The keys of a dict are distinct, which both
    operations keep. *)
Theorem AddressBook_dictionary book :
  NoDup (map fst book) ->
  (forall record name,
      fst (AddressBook.find name (snd (AddressBook.add_record record book)))
      = Ok (if String.eqb (Name.value (Record.name record)) name
            then Some record
            else AddressBook.getitem name book))
  /\ (forall record,
         NoDup (map fst (snd (AddressBook.add_record record book))))
  /\ (forall name,
         AddressBook.getitem name book <> None ->
         fst (AddressBook.delete name book) = Ok tt
         /\ NoDup (map fst (snd (AddressBook.delete name book)))
         /\ forall name',
              fst (AddressBook.find name'
                     (snd (AddressBook.delete name book)))
              = Ok (if String.eqb name name' then None
                    else AddressBook.getitem name' book))
  /\ (forall name,
         AddressBook.getitem name book = None ->
         AddressBook.delete name book = (Raise AddressBook.NotFound, book)).
Proof.
  intros Hk. split; [|split; [|split]].
  - intros record name. cbn.
    destruct (String.eqb_spec (Name.value (Record.name record)) name)
      as [<-|ne].
    + now rewrite getitem_setitem.
    + now rewrite getitem_setitem_other.
  - intros record. cbn.
    destruct (AddressBook.getitem (Name.value (Record.name record)) book)
      as [r|] eqn:G.
    + now rewrite (setitem_keys _ _ _ _ G).
    + rewrite (setitem_absent _ _ _ G), map_app. cbn.
      apply NoDup_app; [assumption|repeat constructor; intros []|].
      intros k Hin [<-|[]]. now apply getitem_None in G.
  - intros name Hn. unfold AddressBook.delete, bind, get, put.
    destruct (AddressBook.getitem name book) as [r|]; [|congruence].
    cbn. split; [reflexivity|]. split; [now apply delitem_keys_NoDup|].
    intros name'. destruct (String.eqb_spec name name') as [<-|ne].
    + now rewrite getitem_delitem.
    + now rewrite getitem_delitem_other.
  - intros name Hn. unfold AddressBook.delete, bind, get, raise.
    now rewrite Hn.
Qed.

Lemma AddressBook_dictionary_witness :
  fst (AddressBook.find "Alice"
         (snd (AddressBook.add_record (Record.init "Alice")
                 [("Bob", Record.init "Bob")])))
  = Ok (Some (Record.init "Alice")).
Proof.
  apply (AddressBook_dictionary [("Bob", Record.init "Bob")]).
  repeat constructor. intros [].
Defined.

(** X18.  [add] of a name that is not in the book, followed by
    [delete] of that name, gives the book back, whatever the phone:
    malformed or not, the new record was in the book. *)
Theorem add_contact_delete_contact book name phone :
  AddressBook.getitem name book = None ->
  delete_contact [name] (snd (add_contact [name; phone] book))
  = (Ok "Contact deleted", book).
Proof.
  intros G. rewrite (add_contact_new _ _ _ G).
  destruct (Record.add_phone phone (Record.init name))
    as [[u|[msg| | | |]] record];
    cbn [snd];
    cbv beta iota delta [delete_contact input_error bind first_arg ret
                           AddressBook.find AddressBook.delete get put];
    rewrite getitem_setitem; cbv beta iota; rewrite getitem_setitem;
    cbn [fst snd]; now rewrite (delitem_setitem_absent _ _ _ G).
Qed.

Lemma add_contact_delete_contact_witness :
  delete_contact ["Alice"]
    (snd (add_contact ["Alice"; "12345"] [("Bob", Record.init "Bob")]))
  = (Ok "Contact deleted", [("Bob", Record.init "Bob")]).
Proof.
  apply (add_contact_delete_contact [("Bob", Record.init "Bob")]
           "Alice" "12345").
  reflexivity.
Defined.

(** ** Birthdays through the handlers *)

Lemma Birthday_init_shows s b :
  Birthday.init s = Ok b -> strftime (Birthday.value b) = strip s.
Proof.
  unfold Birthday.init.
  destruct (re_match Birthday.BD_PATTERN s) eqn:E; cbn [negb]; [|discriminate].
  apply BD_PATTERN_shape in E
    as (a1 & a2 & b1 & b2 & y1 & y2 & y3 & y4 & rest & -> & A1 & A2 & B1 & B2
        & Y1 & Y2 & Y3 & Y4 & Hrest).
  rewrite (strip_ten_chars a1 a2 "." b1 b2 "." y1 y2 y3 y4 rest A1 Y4 Hrest).
  destruct (strptime _) as [d|[msg| | | |]] eqn:P; try discriminate.
  intros H. inversion H; subst b. cbn [Birthday.value].
  apply strptime_ten_chars in P; try assumption. subst d.
  unfold strftime. cbn [Date.year Date.month Date.day].
  now rewrite (pad2_digits a1 a2 A1 A2), (pad2_digits b1 b2 B1 B2),
    (pad4_digits y1 y2 y3 y4 Y1 Y2 Y3 Y4).
Qed.

(** *** The year as the library writes it *)

Lemma append_inv_head (a x y : string) : a ++ x = a ++ y -> x = y.
Proof.
  induction a as [|c a IH]; cbn; [auto|].
  intros H. injection H as H. auto.
Qed.

(** From the year 1000 on the library's text is the four-digit one. *)
Lemma strftime_libc_four_digits d :
  1000 <= Date.year d <= 9999 -> strftime_libc d = strftime d.
Proof.
  intros H. unfold strftime_libc, strftime.
  now rewrite (str_int_four_digits _ H).
Qed.

Lemma strftime_libc_short d :
  1 <= Date.year d <= 999 -> strftime_libc d <> strftime d.
Proof.
  intros H E. unfold strftime_libc, strftime in E.
  do 4 apply append_inv_head in E.
  pose proof (str_int_short _ H) as N.
  rewrite E, year_alt_pad4 in N by lia. discriminate.
Qed.

Lemma str_int_no_dot y : 1 <= y <= 9999 -> has_char "." (str_int y) = false.
Proof.
  intros H.
  assert (A : forallb
                (fun k => negb (has_char "." (str_int (1 + Z.of_nat k))))
                (seq 0 (Z.to_nat 9999)) = true) by (vm_compute; reflexivity).
  rewrite forallb_forall in A.
  specialize (A (Z.to_nat (y - 1))).
  replace (1 + Z.of_nat (Z.to_nat (y - 1))) with y in A by lia.
  apply negb_true_iff, A, in_seq. lia.
Qed.

Lemma split_no_sep c s : has_char c s = false -> split c s = [s].
Proof.
  induction s as [|a s IH]; [reflexivity|].
  cbn [has_char split]. intros H. apply orb_false_iff in H as [Ha Hs].
  now rewrite Ha, (IH Hs).
Qed.

(** The day-and-month part [get_upcoming_birthdays] cuts out of the
    formatted birthday does not depend on how the year is written. *)
Lemma ddmm_of_strftime_libc b :
  1 <= Date.year b <= 9999 ->
  join "." (removelast (split "." (strftime_libc b)))
  = join "." (removelast (split "." (strftime b))).
Proof.
  intros Hy. rewrite ddmm_of_strftime.
  unfold strftime_libc, pad2. cbn [append split].
  rewrite !digit_char_mod_not_dot.
  change (Ascii.eqb "." ".") with true. cbv iota.
  now rewrite (split_no_sep "." _ (str_int_no_dot _ Hy)).
Qed.

Lemma days_before_year_mono y1 y2 :
  y1 <= y2 -> Date.days_before_year y1 <= Date.days_before_year y2.
Proof.
  intros H. unfold Date.days_before_year. cbv zeta.
  Z.div_mod_to_equations. lia.
Qed.

Lemma toordinal_in_year d :
  Date.valid d = true ->
  Date.days_before_year (Date.year d) < Date.toordinal d
  <= Date.days_before_year (Date.year d + 1).
Proof.
  rewrite valid_iff. intros (Hy & Hm & Hd).
  pose proof (days_before_month_bounds _ _ _ Hm Hd) as B.
  rewrite (days_before_year_succ (Date.year d)) by lia.
  unfold Date.toordinal, Date.ymd2ord.
  destruct (Date.is_leap (Date.year d)); lia.
Qed.

(** The date [get_upcoming_birthdays] formats is a weekend date of a
    year read by [%Y] from [str(year)], moved by one or two days: its
    year has four digits, and the library writes it as [strftime]
    does. *)
Lemma strftime_libc_rolled d m y dt k d' :
  1 <= d <= 31 -> 1 <= m <= 12 -> 1 <= y <= 10000 ->
  strptime ((pad2 d ++ "." ++ pad2 m) ++ "." ++ str_int y) = Ok dt ->
  0 <= k -> Date.add_days dt k = Ok d' ->
  strftime_libc d' = strftime d'.
Proof.
  intros Hd Hm Hy P Hk A.
  rewrite (strptime_candidate d m y Hd Hm Hy) in P.
  destruct ((1000 <=? y) && (y <=? 9999)) eqn:R;
    [|destruct (y <? 1000); discriminate].
  apply andb_true_iff in R as [R1 R2].
  apply Z.leb_le in R1, R2.
  apply make_valid in P as [-> V].
  unfold Date.add_days in A. cbv zeta in A.
  set (o := Date.toordinal (Date.mk y m d) + k) in *.
  destruct ((0 <? o) && (o <=? Date.MAXORDINAL)) eqn:O; [|discriminate].
  apply andb_true_iff in O as [O1 O2].
  apply Z.ltb_lt in O1. apply Z.leb_le in O2.
  inversion A; subst d'. clear A.
  assert (Ho : 1 <= o <= Date.MAXORDINAL) by lia.
  destruct (fromordinal_ok o Ho) as [V' T'].
  apply strftime_libc_four_digits.
  pose proof (proj1 (valid_iff _) V') as ((_ & Hmax) & _).
  split; [|assumption].
  pose proof (toordinal_in_year _ V) as B.
  pose proof (toordinal_in_year _ V') as B'.
  cbn [Date.year] in B. rewrite T' in B'.
  destruct (Z.le_gt_cases 1000 (Date.year (Date.fromordinal o))) as [G|G];
    [assumption|].
  assert (Hle : Date.year (Date.fromordinal o) + 1 <= y) by lia.
  pose proof (days_before_year_mono _ _ Hle) as M.
  subst o. lia.
Qed.

(** X19.  After the answer [Birthday added] to [add-birthday name
    value], [show-birthday name] changes nothing and displays the stored
    date as the library formats it.  [value] without the white space
    around it is that date with a four-digit year, and it is what is
    displayed exactly when the year is 1000 or later: of an earlier
    year the zeros in front are not displayed. *)
Theorem add_birthday_show_birthday book name value :
  fst (add_birthday [name; value] book) = Ok "Birthday added" ->
  exists b,
    Birthday.init value = Ok b
    /\ show_birthday [name] (snd (add_birthday [name; value] book))
       = (Ok (strftime_libc (Birthday.value b)),
          snd (add_birthday [name; value] book))
    /\ strip value = strftime (Birthday.value b)
    /\ (strftime_libc (Birthday.value b) = strip value
        <-> 1000 <= Date.year (Birthday.value b)).
Proof.
  cbv beta iota delta [add_birthday show_birthday input_error bind unpack2
                         first_arg ret raise AddressBook.find get on_record
                         NoContact AlreadySet].
  destruct (AddressBook.getitem name book) as [record|] eqn:G;
    [|discriminate].
  destruct (Record.birthday record) as [b0|] eqn:B; [discriminate|].
  unfold Record.add_birthday, bind, lift, get, put.
  destruct (Birthday.init value) as [b|e] eqn:I.
  - intros _. exists b. split; [reflexivity|].
    cbn [fst snd]. rewrite getitem_setitem.
    cbn [Record.birthday Record.set_birthday].
    split; [reflexivity|].
    pose proof (Birthday_init_shows _ _ I) as S.
    pose proof (Birthday_init_valid _ _ I) as V.
    apply valid_iff in V as (Hy & _).
    split; [now symmetry|]. rewrite <- S. split.
    + intros E. destruct (Z.le_gt_cases 1000 (Date.year (Birthday.value b)))
        as [L|L]; [assumption|].
      now destruct (strftime_libc_short (Birthday.value b) ltac:(lia)).
    + intros L. apply strftime_libc_four_digits. lia.
  - pose proof (Birthday_init_raises _ _ I) as ->. discriminate.
Qed.

Lemma add_birthday_show_birthday_witness :
  exists b,
    Birthday.init "15.06.1990" = Ok b
    /\ show_birthday ["Alice"]
         (snd (add_birthday ["Alice"; "15.06.1990"]
                 [("Alice", Record.init "Alice")]))
       = (Ok (strftime_libc (Birthday.value b)),
          snd (add_birthday ["Alice"; "15.06.1990"]
                 [("Alice", Record.init "Alice")]))
    /\ strip "15.06.1990" = strftime (Birthday.value b)
    /\ (strftime_libc (Birthday.value b) = strip "15.06.1990"
        <-> 1000 <= Date.year (Birthday.value b)).
Proof.
  apply (add_birthday_show_birthday [("Alice", Record.init "Alice")]
           "Alice" "15.06.1990").
  reflexivity.
Defined.

(** A year below 1000 is accepted with its four digits and shown
    without the zeros in front. *)
Example show_birthday_year_below_1000 :
  let book := [("Alice", Record.init "Alice")] in
  fst (add_birthday ["Alice"; "01.01.0999"] book) = Ok "Birthday added"
  /\ fst (show_birthday ["Alice"]
            (snd (add_birthday ["Alice"; "01.01.0999"] book)))
     = Ok "01.01.999"
  /\ fst (show_birthday ["Alice"]
            (snd (add_birthday ["Alice"; "15.06.1990"] book)))
     = Ok "15.06.1990".
Proof. vm_compute. repeat split. Qed.

(** ** Deleting a phone through the handler *)

Lemma existsb_values phone l :
  existsb (String.eqb phone) (map Phone.value l) = contains (Phone.mk phone) l.
Proof.
  unfold contains. induction l as [|[v] l IH]; [reflexivity|].
  cbn. unfold Phone.eqb at 1. cbn. now rewrite IH, (String.eqb_sym phone v).
Qed.

Lemma list_remove_first x l :
  In x l ->
  exists before after,
    l = (before ++ x :: after)%list
    /\ ~ In x before
    /\ list_remove x l = Some (before ++ after)%list.
Proof.
  induction l as [|a l IH]; [intros []|].
  intros Hin. cbn [list_remove].
  destruct (Phone.eqb a x) eqn:E.
  - apply Phone_eqb_eq in E. subst a. exists [], l. cbn. auto.
  - assert (Hne : a <> x).
    { intros ->. rewrite (proj2 (Phone_eqb_eq x x) eq_refl) in E.
      discriminate. }
    destruct Hin as [Ha|Hin]; [contradiction|].
    destruct (IH Hin) as (before & after & -> & Hb & ->).
    exists (a :: before), after. cbn. split; [reflexivity|].
    split; [|reflexivity]. intros [H|H]; auto.
Qed.

(** X20.  [delete-phone name phone] on a contact of the book: if no
    phone of the contact has the value [phone] the answer is
    [No such phone number in contact] and nothing changes; otherwise the
    first phone with that value is removed, the others keep their order,
    and the answer is [Phone deleted].  The handler has looked the phone
    up before it calls [Record.delete_phone], so the error of that
    method is never displayed. *)
Theorem delete_phone_handler book name phone record :
  AddressBook.getitem name book = Some record ->
  (~ In phone (map Phone.value (Record.phones record)) ->
   delete_phone [name; phone] book
   = (Ok "No such phone number in contact", book))
  /\ (In phone (map Phone.value (Record.phones record)) ->
      exists before after,
        Record.phones record = (before ++ Phone.mk phone :: after)%list
        /\ ~ In (Phone.mk phone) before
        /\ delete_phone [name; phone] book
           = (Ok "Phone deleted",
              AddressBook.setitem name
                (Record.set_phones record (before ++ after)) book)).
Proof.
  intros G.
  assert (Hc : In phone (map Phone.value (Record.phones record))
               <-> contains (Phone.mk phone) (Record.phones record) = true).
  { rewrite contains_In, in_map_iff. split.
    - intros ([v] & <- & Hin). exact Hin.
    - intros Hin. now exists (Phone.mk phone). }
  cbv beta iota delta [delete_phone input_error bind unpack2 ret raise
                         AddressBook.find get on_record].
  rewrite G, existsb_values. split.
  - intros Hn.
    destruct (contains (Phone.mk phone) (Record.phones record)) eqn:C;
      [now destruct Hn; apply Hc|].
    reflexivity.
  - intros Hin. apply Hc in Hin. rewrite Hin. cbn [negb].
    pose proof (proj1 (contains_In _ _) Hin) as Hin'.
    destruct (list_remove_first _ _ Hin') as (before & after & Hl & Hb & Hr).
    exists before, after. split; [assumption|]. split; [assumption|].
    unfold Record.delete_phone, Record.find_phone, bind, get, put, ret.
    rewrite find_phone_value, Hin. cbv beta iota. now rewrite Hr.
Qed.

Lemma delete_phone_handler_witness :
  delete_phone ["Alice"; "12345"]
    [("Alice", Record.mk (Name.mk "Alice") [Phone.mk "1234567890"] None)]
  = (Ok "No such phone number in contact",
     [("Alice", Record.mk (Name.mk "Alice") [Phone.mk "1234567890"] None)]).
Proof.
  apply (delete_phone_handler
           [("Alice", Record.mk (Name.mk "Alice") [Phone.mk "1234567890"] None)]
           "Alice" "12345"
           (Record.mk (Name.mk "Alice") [Phone.mk "1234567890"] None)).
  - reflexivity.
  - cbn. intros [H|[]]. discriminate.
Defined.
